(** * dnscrypt-proxy: configuration loading (dnscrypt-proxy/config.go)

    A shallow embedding of [ConfigLoad] and [includesName].  The function
    reads the configuration, fills in the proxy settings, resolves the
    servers announced by the configured sources and the servers declared
    one by one, and refuses to start without a server.

    The Go code mutates the proxy behind a pointer and calls into code
    that lives elsewhere (the TOML decoder, the command-line flags, the
    logger, the source fetcher, the stamp builder).  Here the proxy is
    threaded through explicitly together with the trace of the calls made
    so far, and everything that lives elsewhere is gathered in one record
    of externals. *)

From Stdlib Require Import String Ascii List ZArith Bool Lia.
Import ListNotations.
Local Open Scope string_scope.
Local Open Scope list_scope.
Local Open Scope Z_scope.

(** ** The parts of Go the function relies on *)

Module Go.

(** [time.Duration] is an int64 count of nanoseconds; its arithmetic
    wraps around silently. *)
Definition Duration := Z.
Definition wrap64 (z : Z) : Z := (z + 2 ^ 63) mod 2 ^ 64 - 2 ^ 63.
Definition Millisecond : Duration := 1000000.
Definition Minute : Duration := 60 * 1000000000.
Definition Hour : Duration := 60 * Minute.
(** [time.Duration(n) * unit] *)
Definition times (n : Z) (unit : Duration) : Duration := wrap64 (n * unit).

(** An [error] as this file sees it: the message that [errors.New] and
    [fmt.Errorf] store and [%s] prints. *)
Inductive error : Type := errors_New (message : string).
Definition Error (e : error) : string := let 'errors_New m := e in m.

(** A [(value, error)] pair of results: the value counts only when the
    error is nil. *)
Inductive result (A : Type) : Type :=
| Ok (a : A)
| Err (e : error).
Arguments Ok {A} a.
Arguments Err {A} e.

(** A [map[string]V].  The keys are distinct; [range] visits every entry
    once, in an order the runtime picks.  The entries are listed here in
    the order in which [range] visits them in the run at hand, so that
    quantifying over the lists quantifies over the maps and over the
    orders. *)
Definition gomap (V : Type) : Type := list (string * V).

(** [m[k]] with the comma-ok form: key equality is equality of bytes. *)
Fixpoint lookup {V : Type} (m : gomap V) (k : string) : option V :=
  match m with
  | [] => None
  | (k', v) :: rest => if String.eqb k' k then Some v else lookup rest k
  end.

Definition keys {V : Type} (m : gomap V) : list string := List.map fst m.

(** [flag.String(name, value, usage)] followed by [flag.Parse()]: the
    value given on the command line, or the default.  A command line that
    [flag.Parse] refuses ends the process before anything is read; such
    command lines are left out. *)
Definition flag_String (given : option string) (value : string) : string :=
  match given with
  | Some v => v
  | None => value
  end.

(** [strings.EqualFold] restricted to ASCII text, where simple case
    folding amounts to comparing letters regardless of their case. *)
Definition lowerASCII (c : ascii) : ascii :=
  let n := nat_of_ascii c in
  if ((65 <=? n) && (n <=? 90))%nat then ascii_of_nat (n + 32) else c.

Fixpoint EqualFoldASCII (s t : string) : bool :=
  match s, t with
  | EmptyString, EmptyString => true
  | String a s', String b t' =>
      Ascii.eqb (lowerASCII a) (lowerASCII b) && EqualFoldASCII s' t'
  | _, _ => false
  end.

End Go.
Import Go.

(** ** The configuration, as decoded (config.go, lines 14-59) *)

Record ServerConfig : Type := {
  Stamp : string;
  ProviderName : string;
  Address : string;
  PublicKey : string;
  NoLog : bool;
  DNSSEC : bool
}.

Record SourceConfig : Type := {
  URL : string;
  MinisignKeyStr : string;
  CacheFile : string;
  FormatStr : string;
  RefreshDelay : Z
}.

Record Config : Type := {
  ServerNames : list string;
  ListenAddresses : list string;
  Daemonize : bool;
  ForceTCP : bool;
  Timeout : Z;
  CertRefreshDelay : Z;
  BlockIPv6 : bool;
  Cache : bool;
  CacheSize : Z;
  CacheNegTTL : Z;
  CacheMinTTL : Z;
  CacheMaxTTL : Z;
  ServersConfig : gomap ServerConfig;
  SourcesConfig : gomap SourceConfig
}.

(** [newConfig] (lines 31-42); the fields it leaves out hold Go's zero
    values. *)
Definition newConfig : Config := {|
  ServerNames := [];
  ListenAddresses := ["127.0.0.1:53"];
  Daemonize := false;
  ForceTCP := false;
  Timeout := 2500;
  CertRefreshDelay := 30;
  BlockIPv6 := false;
  Cache := true;
  CacheSize := 256;
  CacheNegTTL := 60;
  CacheMinTTL := 60;
  CacheMaxTTL := 8600;
  ServersConfig := [];
  SourcesConfig := []
|}.

(** ** What config.go uses and does not define *)

(** The levels of the [dlog] calls made here: [Infof], [Criticalf] and
    [Fatal]. *)
Inductive Severity : Type :=
| SeverityInfo
| SeverityCritical
| SeverityFatal.

(** What the function does to the outside world, in the order it does it:
    a call of the decoder, of the source constructor, of a source's
    [Parse], of the stamp builder, or a line handed to the logger. *)
Inductive Event (Source : Type) : Type :=
| DecodeFileCall (path : string)
| NewSourceCall (url minisignKey cacheFile format : string) (refreshDelay : Duration)
| ParseCall (source : Source)
| NewServerStampFromLegacyCall (address publicKey providerName : string)
| Log (severity : Severity) (message : string).
Arguments DecodeFileCall {Source} path.
Arguments NewSourceCall {Source} url minisignKey cacheFile format refreshDelay.
Arguments ParseCall {Source} source.
Arguments NewServerStampFromLegacyCall {Source} address publicKey providerName.
Arguments Log {Source} severity message.

(** Modelled from the spec: the [RegisteredServer] struct is declared outside
    config.go.  It is the spec's CandidateServer, a name and a stamp, which
    are the two fields the literal on line 140 fills in; the stamp itself is
    opaque. *)
Record RegisteredServer (ServerStamp : Type) : Type := {
  name : string;
  stamp : ServerStamp
}.
Arguments name {ServerStamp} r.
Arguments stamp {ServerStamp} r.

(** The externals.  Each collaborator does I/O, so what it answers may
    depend on all that happened before: it receives the trace so far.
    - [configFlag]: what the command line gives for [-config], if anything;
    - [DecodeFile path config]: [toml.DecodeFile(path, &config)], which
      overwrites in [config] the fields the file sets;
    - [NewSource], [Parse], [NewServerStampFromLegacy]: the source fetcher
      and the stamp builder;
    - [EqualFold]: [strings.EqualFold], equality under Unicode case
      folding. *)
Record Externals : Type := {
  ServerStamp : Type;
  Source : Type;
  configFlag : option string;
  DecodeFile : list (Event Source) -> string -> Config -> result Config;
  NewSource : list (Event Source) ->
              string -> string -> string -> string -> Duration -> result Source;
  Parse : list (Event Source) -> Source -> result (list (RegisteredServer ServerStamp));
  NewServerStampFromLegacy : list (Event Source) ->
                             string -> string -> string -> result ServerStamp;
  EqualFold : string -> string -> bool
}.

(** ** The model of ConfigLoad *)

Section Model.

Context (X : Externals).

Definition Server : Type := RegisteredServer (ServerStamp X).
Definition Trace : Type := list (Event (Source X)).

(** Modelled from the spec: the [Proxy] struct is declared outside
    config.go.  It is the spec's ProxySettings, the effective settings
    and the registry: one field for each field [ConfigLoad] assigns, of
    the type of the value assigned. *)
Record Proxy : Type := {
  timeout : Duration;
  mainProto : string;
  certRefreshDelay : Duration;
  listenAddresses : list string;
  daemonize : bool;
  pluginBlockIPv6 : bool;
  cache : bool;
  cacheSize : Z;
  cacheNegTTL : Z;
  cacheMinTTL : Z;
  cacheMaxTTL : Z;
  registeredServers : list Server
}.

(** The proxy behind the pointer, and the trace of what was done. *)
Record State : Type := {
  proxy : Proxy;
  trace : Trace
}.

(** How a loop body, or a loop, ends: it falls through to what follows,
    it makes [ConfigLoad] return an error, or [dlog.Fatal] ends the
    process. *)
Inductive Flow : Type :=
| Next (st : State)
| Return (st : State) (err : error)
| Exit (st : State).

(** How [ConfigLoad] ends: it returns (nil is [None]), or the process was
    ended before it could. *)
Inductive Outcome : Type :=
| Returned (err : option error)
| Exited.

Definition emit (e : Event (Source X)) (st : State) : State :=
  {| proxy := proxy st; trace := trace st ++ [e] |}.

(** lines 68-73 *)
Definition setTransport (config : Config) (p : Proxy) : Proxy := {|
  timeout := times (Timeout config) Millisecond;
  mainProto := if ForceTCP config then "tcp" else "udp";
  certRefreshDelay := times (CertRefreshDelay config) Minute;
  listenAddresses := listenAddresses p;
  daemonize := daemonize p;
  pluginBlockIPv6 := pluginBlockIPv6 p;
  cache := cache p;
  cacheSize := cacheSize p;
  cacheNegTTL := cacheNegTTL p;
  cacheMinTTL := cacheMinTTL p;
  cacheMaxTTL := cacheMaxTTL p;
  registeredServers := registeredServers p
|}.

(** lines 77-84 *)
Definition setSettings (config : Config) (p : Proxy) : Proxy := {|
  timeout := timeout p;
  mainProto := mainProto p;
  certRefreshDelay := certRefreshDelay p;
  listenAddresses := ListenAddresses config;
  daemonize := Daemonize config;
  pluginBlockIPv6 := BlockIPv6 config;
  cache := Cache config;
  cacheSize := CacheSize config;
  cacheNegTTL := CacheNegTTL config;
  cacheMinTTL := CacheMinTTL config;
  cacheMaxTTL := CacheMaxTTL config;
  registeredServers := registeredServers p
|}.

(** [proxy.registeredServers = append(proxy.registeredServers, server)] *)
Definition register (server : Server) (st : State) : State := {|
  proxy := {|
    timeout := timeout (proxy st);
    mainProto := mainProto (proxy st);
    certRefreshDelay := certRefreshDelay (proxy st);
    listenAddresses := listenAddresses (proxy st);
    daemonize := daemonize (proxy st);
    pluginBlockIPv6 := pluginBlockIPv6 (proxy st);
    cache := cache (proxy st);
    cacheSize := cacheSize (proxy st);
    cacheNegTTL := cacheNegTTL (proxy st);
    cacheMinTTL := cacheMinTTL (proxy st);
    cacheMaxTTL := cacheMaxTTL (proxy st);
    registeredServers := registeredServers (proxy st) ++ [server]
  |};
  trace := trace st
|}.

(** [includesName] (lines 148-155) *)
Fixpoint includesName (names : list string) (name : string) : bool :=
  match names with
  | [] => false
  | found :: rest =>
      if EqualFold X found name then true else includesName rest name
  end.

(** lines 85-89: the names asked for, or every name of the servers table *)
Definition wantedNames (config : Config) : list string :=
  if (List.length (ServerNames config) =? 0)%nat
  then fold_left (fun names entry => names ++ [fst entry])
                 (ServersConfig config) (ServerNames config)
  else ServerNames config.

(** lines 117-121: one server announced by a source *)
Definition registerIfWanted (names : list string) (st : State)
           (registeredServer : Server) : State :=
  if negb (includesName names (name registeredServer)) then st
  else register registeredServer
         (emit (Log SeverityInfo
                    ("Adding [" ++ name registeredServer
                       ++ "] to the set of wanted resolvers")) st).

(** lines 116-122 *)
Definition registerWanted (names : list string) (servers : list Server)
           (st : State) : State :=
  fold_left (registerIfWanted names) servers st.

(** [fmt.Errorf("Missing ... for source [%s]", sourceName)] *)
Definition missing (field sourceName : string) : error :=
  errors_New ("Missing " ++ field ++ " for source [" ++ sourceName ++ "]").

(** [dlog.Criticalf("Unable use source [%s]: [%s]", sourceName, err)] *)
Definition unusable (sourceName : string) (err : error) (st : State) : State :=
  emit (Log SeverityCritical
            ("Unable use source [" ++ sourceName ++ "]: [" ++ Error err ++ "]")) st.

(** lines 103-105, on the loop's copy of the entry *)
Definition defaultRefreshDelay (source : SourceConfig) : SourceConfig :=
  if RefreshDelay source <=? 0
  then {| URL := URL source;
          MinisignKeyStr := MinisignKeyStr source;
          CacheFile := CacheFile source;
          FormatStr := FormatStr source;
          RefreshDelay := 24 |}
  else source.

(** The calls of the collaborators: each leaves its mark in the trace and
    answers from what happened before it. *)
Definition callNewSource (source : SourceConfig) (st : State)
  : State * result (Source X) :=
  let delay := times (RefreshDelay source) Hour in
  (emit (NewSourceCall (URL source) (MinisignKeyStr source) (CacheFile source)
                       (FormatStr source) delay) st,
   NewSource X (trace st) (URL source) (MinisignKeyStr source) (CacheFile source)
             (FormatStr source) delay).

Definition callParse (src : Source X) (st : State)
  : State * result (list Server) :=
  (emit (ParseCall src) st, Parse X (trace st) src).

Definition callNewServerStampFromLegacy (serverConfig : ServerConfig) (st : State)
  : State * result (ServerStamp X) :=
  (emit (NewServerStampFromLegacyCall (Address serverConfig)
           (PublicKey serverConfig) (ProviderName serverConfig)) st,
   NewServerStampFromLegacy X (trace st) (Address serverConfig)
     (PublicKey serverConfig) (ProviderName serverConfig)).

Definition callDecodeFile (path : string) (config : Config) (st : State)
  : State * result Config :=
  (emit (DecodeFileCall path) st, DecodeFile X (trace st) path config).

(** lines 91-122: the body of the loop over the sources *)
Definition sourceStep (names : list string) (sourceName : string)
           (source : SourceConfig) (st : State) : Flow :=
  if String.eqb (URL source) "" then Return st (missing "URL" sourceName)
  else if String.eqb (MinisignKeyStr source) ""
  then Return st (missing "Minisign key" sourceName)
  else if String.eqb (CacheFile source) ""
  then Return st (missing "cache file" sourceName)
  else if String.eqb (FormatStr source) ""
  then Return st (missing "format" sourceName)
  else
    let (st1, constructed) := callNewSource (defaultRefreshDelay source) st in
    match constructed with
    | Err err => Next (unusable sourceName err st1)
    | Ok src =>
        let (st2, parsed) := callParse src st1 in
        match parsed with
        | Err err => Next (unusable sourceName err st2)
        | Ok servers => Next (registerWanted names servers st2)
        end
    end.

(** lines 90-123 *)
Fixpoint sourcesLoop (names : list string) (sources : gomap SourceConfig)
         (st : State) : Flow :=
  match sources with
  | [] => Next st
  | (sourceName, source) :: rest =>
      match sourceStep names sourceName source st with
      | Next st' => sourcesLoop names rest st'
      | stop => stop
      end
  end.

(** lines 125-140: the body of the loop over the wanted names *)
Definition serverStep (servers : gomap ServerConfig) (serverName : string)
           (st : State) : Flow :=
  match lookup servers serverName with
  | None => Next st
  | Some serverConfig =>
      if (0 <? String.length (Stamp serverConfig))%nat
      then Exit (emit (Log SeverityFatal "Stamps are not implemented yet") st)
      else
        let (st1, built) := callNewServerStampFromLegacy serverConfig st in
        match built with
        | Err err => Return st1 err
        | Ok stamp => Next (register {| name := serverName; stamp := stamp |} st1)
        end
  end.

(** lines 124-141 *)
Fixpoint serversLoop (servers : gomap ServerConfig) (names : list string)
         (st : State) : Flow :=
  match names with
  | [] => Next st
  | serverName :: rest =>
      match serverStep servers serverName st with
      | Next st' => serversLoop servers rest st'
      | stop => stop
      end
  end.

(** lines 142-145 *)
Definition checkRegistry (st : State) : State * Outcome :=
  if (List.length (registeredServers (proxy st)) =? 0)%nat
  then (st, Returned (Some (errors_New "No servers configured")))
  else (st, Returned None).

(** What follows a loop: the rest of the function when the loop falls
    through, the end of [ConfigLoad] otherwise. *)
Definition andThen (flow : Flow) (rest : State -> State * Outcome)
  : State * Outcome :=
  match flow with
  | Next st => rest st
  | Return st err => (st, Returned (Some err))
  | Exit st => (st, Exited)
  end.

(** lines 124-145: the servers declared one by one, and the last check *)
Definition resolveServers (config : Config) (names : list string) (st : State)
  : State * Outcome :=
  andThen (serversLoop (ServersConfig config) names st) checkRegistry.

(** lines 90-145: both passes and the last check, for the wanted [names] *)
Definition resolve (config : Config) (names : list string) (st : State)
  : State * Outcome :=
  andThen (sourcesLoop names (SourcesConfig config) st)
          (resolveServers config names).

(** lines 62-63: the file that is read *)
Definition configFile : string :=
  flag_String (configFlag X) "dnscrypt-proxy.toml".

(** lines 68-73 and 77-84, on the proxy behind the pointer *)
Definition withTransport (config : Config) (st : State) : State :=
  {| proxy := setTransport config (proxy st); trace := trace st |}.

Definition withSettings (config : Config) (st : State) : State :=
  {| proxy := setSettings config (proxy st); trace := trace st |}.

(** [ConfigLoad] (lines 61-146); [st] holds the proxy the pointer leads
    to.  [dlog.Fatal] does not come back: it ends the process. *)
Definition ConfigLoad (st : State) (config_file : string) : State * Outcome :=
  let (st0, decoded) := callDecodeFile configFile newConfig st in
  match decoded with
  | Err err => (st0, Returned (Some err))
  | Ok config =>
      let st1 := withTransport config st0 in
      if (List.length (ListenAddresses config) =? 0)%nat
      then (st1, Returned (Some (errors_New "No local IP/port configured")))
      else resolve config (wantedNames config) (withSettings config st1)
  end.

End Model.

Arguments Next {X} st.
Arguments Return {X} st err.
Arguments Exit {X} st.
Arguments proxy {X} s.
Arguments trace {X} s.
Arguments timeout {X} p.
Arguments mainProto {X} p.
Arguments certRefreshDelay {X} p.
Arguments listenAddresses {X} p.
Arguments daemonize {X} p.
Arguments pluginBlockIPv6 {X} p.
Arguments cache {X} p.
Arguments cacheSize {X} p.
Arguments cacheNegTTL {X} p.
Arguments cacheMinTTL {X} p.
Arguments cacheMaxTTL {X} p.
Arguments registeredServers {X} p.

(** ** A small world to run the model in *)

Module World.

(** A stamp that remembers the three legacy fields it was built from. *)
Inductive LegacyStamp : Type :=
| legacy (address publicKey providerName : string).

(** The builder refuses an empty address, key or provider name. *)
Definition buildStamp (address publicKey providerName : string)
  : result LegacyStamp :=
  if String.eqb address "" then Err (errors_New "Invalid address")
  else if String.eqb publicKey "" then Err (errors_New "Unsupported public key")
  else if String.eqb providerName "" then Err (errors_New "Invalid provider name")
  else Ok (legacy address publicKey providerName).

(** A configuration file: the fields it sets over the defaults. *)
Definition File : Type := Config -> Config.

Definition decode (files : gomap File) (path : string) (config : Config)
  : result Config :=
  match lookup files path with
  | Some file => Ok (file config)
  | None => Err (errors_New ("open " ++ path ++ ": no such file or directory"))
  end.

(** A source is known by its URL; only the format "v1" can be used, and
    [lists] holds, per URL, the servers the signed list announces. *)
Definition construct (url minisignKey cacheFile format : string)
           (refreshDelay : Duration) : result string :=
  if String.eqb format "v1" then Ok url
  else Err (errors_New "Unsupported source format").

Definition parse (lists : gomap (list (RegisteredServer LegacyStamp)))
           (url : string) : result (list (RegisteredServer LegacyStamp)) :=
  match lookup lists url with
  | Some servers => Ok servers
  | None => Err (errors_New "Invalid signature")
  end.

Definition externals (flag : option string) (files : gomap File)
           (lists : gomap (list (RegisteredServer LegacyStamp))) : Externals := {|
  ServerStamp := LegacyStamp;
  Source := string;
  configFlag := flag;
  DecodeFile := fun _ => decode files;
  NewSource := fun _ => construct;
  Parse := fun _ => parse lists;
  NewServerStampFromLegacy := fun _ => buildStamp;
  EqualFold := EqualFoldASCII
|}.

(** A file that sets the listed fields and leaves the others alone. *)
Definition file (names listen : option (list string))
           (servers : gomap ServerConfig) (sources : gomap SourceConfig) : File :=
  fun config => {|
    ServerNames := match names with Some l => l | None => ServerNames config end;
    ListenAddresses :=
      match listen with Some l => l | None => ListenAddresses config end;
    Daemonize := Daemonize config;
    ForceTCP := ForceTCP config;
    Timeout := Timeout config;
    CertRefreshDelay := CertRefreshDelay config;
    BlockIPv6 := BlockIPv6 config;
    Cache := Cache config;
    CacheSize := CacheSize config;
    CacheNegTTL := CacheNegTTL config;
    CacheMinTTL := CacheMinTTL config;
    CacheMaxTTL := CacheMaxTTL config;
    ServersConfig := servers;
    SourcesConfig := sources
  |}.

Definition server (stampString address publicKey providerName : string)
  : ServerConfig := {|
  Stamp := stampString;
  ProviderName := providerName;
  Address := address;
  PublicKey := publicKey;
  NoLog := false;
  DNSSEC := false
|}.

Definition source (url minisignKey cacheFile format : string) (refreshDelay : Z)
  : SourceConfig := {|
  URL := url;
  MinisignKeyStr := minisignKey;
  CacheFile := cacheFile;
  FormatStr := format;
  RefreshDelay := refreshDelay
|}.

Definition announced (name address : string) : RegisteredServer LegacyStamp :=
  {| name := name; stamp := legacy address "KEY" "2.dnscrypt-cert.example" |}.

(** The proxy as [main] hands it over: Go's zero value. *)
Definition zeroProxy (X : Externals) : Proxy X := {|
  timeout := 0;
  mainProto := "";
  certRefreshDelay := 0;
  listenAddresses := [];
  daemonize := false;
  pluginBlockIPv6 := false;
  cache := false;
  cacheSize := 0;
  cacheNegTTL := 0;
  cacheMinTTL := 0;
  cacheMaxTTL := 0;
  registeredServers := []
|}.

Definition start (X : Externals) : State X :=
  {| proxy := zeroProxy X; trace := [] |}.

(** Entries of the servers table: one in order, one given as a stamp
    string (with its legacy fields in order as well), one without a
    provider name. *)
Definition r1 : ServerConfig := server "" "1.2.3.4:443" "ABCD" "p.example".
Definition stamped : ServerConfig :=
  server "sdns://AQcAAAAA" "1.2.3.4:443" "ABCD" "p.example".
Definition nameless : ServerConfig := server "" "5.6.7.8:443" "EF01" "".

(** Sources: a usable one without a refresh delay, one in a format that
    cannot be used, one whose list does not verify, one without URL. *)
Definition publicList : SourceConfig :=
  source "https://example.org/resolvers.csv" "RWQf6LRC" "resolvers.csv" "v1" 0.
Definition oddList : SourceConfig :=
  source "https://example.org/odd.csv" "RWQf6LRC" "odd.csv" "v2" 72.
Definition forgedList : SourceConfig :=
  source "https://example.org/forged.csv" "RWQf6LRC" "forged.csv" "v1" 72.
Definition noURL : SourceConfig := source "" "RWQf6LRC" "x.csv" "v1" 72.

Definition lists : gomap (list (RegisteredServer LegacyStamp)) :=
  [("https://example.org/resolvers.csv",
    [announced "A" "1.1.1.1:443"; announced "c" "2.2.2.2:443"])].

(** The world in which "dnscrypt-proxy.toml" sets the given fields and no
    [-config] flag is given. *)
Definition world (names listen : option (list string))
           (servers : gomap ServerConfig) (sources : gomap SourceConfig)
  : Externals :=
  externals None [("dnscrypt-proxy.toml", file names listen servers sources)] lists.

(** Two files side by side, for the worlds that differ in the flag only:
    "a.toml" declares a server, "b.toml" empties the listen addresses. *)
Definition twoFiles : gomap File :=
  [("a.toml", file None None [("r1", r1)] []);
   ("b.toml", file None (Some []) [] [])].

(** The worlds of the examples. *)
Definition noServer : Externals := world None None [] [].
Definition oneServer : Externals := world None None [("r1", r1)] [].
Definition stampedServer : Externals :=
  world None None [("r1", r1); ("r2", stamped)] [].
Definition namelessServer : Externals :=
  world (Some ["r0"; "r1"]) None [("r1", r1); ("r0", nameless)] [].
Definition noListenAddress : Externals :=
  world None (Some []) [("r1", r1)] [("public", publicList)].
Definition threeSources : Externals :=
  world (Some ["a"; "b"]) None []
        [("odd", oddList); ("forged", forgedList); ("public", publicList)].
Definition sourceWithoutURL : Externals :=
  world (Some ["a"; "b"]) None [] [("public", publicList); ("broken", noURL)].
Definition otherCase : Externals :=
  world (Some ["cisco"]) None [("Cisco", r1)] [].

End World.

(** ** More worlds *)

Module Scenes.

(** A wanted name listed twice, next to the name of a server of a source. *)
Definition listedTwice : Externals :=
  World.world (Some ["a"; "r1"; "r1"]) None [("r1", World.r1)]
              [("public", World.publicList)].

(** Neither server names nor servers, and a source that announces two. *)
Definition sourcesOnly : Externals :=
  World.world None None [] [("public", World.publicList)].

(** A file that sets the timeout and the refresh delay of the certificates,
    in milliseconds and minutes, and declares the server "r1". *)
Definition delays (timeoutMs certRefreshMinutes : Z) : World.File :=
  fun config => {|
    ServerNames := ServerNames config;
    ListenAddresses := ListenAddresses config;
    Daemonize := Daemonize config;
    ForceTCP := true;
    Timeout := timeoutMs;
    CertRefreshDelay := certRefreshMinutes;
    BlockIPv6 := BlockIPv6 config;
    Cache := Cache config;
    CacheSize := CacheSize config;
    CacheNegTTL := CacheNegTTL config;
    CacheMinTTL := CacheMinTTL config;
    CacheMaxTTL := CacheMaxTTL config;
    ServersConfig := [("r1", World.r1)];
    SourcesConfig := SourcesConfig config
  |}.

Definition longTimeout : Externals :=
  World.externals None [("dnscrypt-proxy.toml", delays 9223372036855 240)] [].

(** A source to be refreshed every 2562048 hours. *)
Definition rarelyRefreshed : SourceConfig :=
  World.source "https://example.org/resolvers.csv" "RWQf6LRC" "resolvers.csv" "v1"
               2562048.

(** The server [World.r1] with both of its flags set. *)
Definition flagged : ServerConfig := {|
  Stamp := "";
  ProviderName := "p.example";
  Address := "1.2.3.4:443";
  PublicKey := "ABCD";
  NoLog := true;
  DNSSEC := true
|}.

(** No server names, the declared server "a", and a source that announces
    "A" and "c". *)
Definition defaultedNames : Externals :=
  World.world None None [("a", World.r1)] [("public", World.publicList)].

(** A refresh delay of the certificates of minus 153722868 minutes. *)
Definition negativeRefresh : Externals :=
  World.externals None [("dnscrypt-proxy.toml", delays 2500 (-153722868))] [].

End Scenes.

(** ** Vocabulary of the statements *)

(** The first required field of a source declaration that is empty, in the
    order URL, verification key, cache file, format, under the name the
    error message gives it; [None] when all four are there. *)
Definition firstMissing (source : SourceConfig) : option string :=
  if String.eqb (URL source) "" then Some "URL"
  else if String.eqb (MinisignKeyStr source) "" then Some "Minisign key"
  else if String.eqb (CacheFile source) "" then Some "cache file"
  else if String.eqb (FormatStr source) "" then Some "format"
  else None.

(** What the decoder answers for the file [ConfigLoad] reads, and the state
    in which the two passes begin once it has answered [config]. *)
Definition decoded (X : Externals) (st : State X) : result Config :=
  snd (callDecodeFile X (configFile X) newConfig st).

Definition ready (X : Externals) (config : Config) (st : State X) : State X :=
  withSettings X config
    (withTransport X config (fst (callDecodeFile X (configFile X) newConfig st))).

(** The files a trace shows to have been handed to the decoder. *)
Definition decodedPaths {Source : Type} (tr : list (Event Source)) : list string :=
  flat_map (fun e => match e with DecodeFileCall path => [path] | _ => [] end) tr.

(** The state a loop or a loop body leaves behind, however it ends. *)
Definition stateOf {X : Externals} (flow : Flow X) : State X :=
  match flow with
  | Next st | Return st _ | Exit st => st
  end.

(** The load of the decoded [config], started in [st0], has gone through
    the sources [before] without stopping and stands in [st]. *)
Definition sourcesPassAt (X : Externals) (config : Config) (st0 : State X)
           (before : gomap SourceConfig) (st : State X) : Prop :=
  decoded X st0 = Ok config
  /\ ListenAddresses config <> []
  /\ sourcesLoop X (wantedNames config) before (ready X config st0) = Next st.

(** The load of the decoded [config], started in [st0], has gone through
    all its sources and through the wanted names [before] without stopping
    and stands in [st]. *)
Definition serversPassAt (X : Externals) (config : Config) (st0 : State X)
           (before : list string) (st : State X) : Prop :=
  exists st1 : State X,
    sourcesPassAt X config st0 (SourcesConfig config) st1
    /\ serversLoop X (ServersConfig config) before st1 = Next st.

(** Every field of the proxy but the registry. *)
Definition settingsOf {X : Externals} (p : Proxy X) :=
  (timeout p, mainProto p, certRefreshDelay p, listenAddresses p,
   (daemonize p, pluginBlockIPv6 p),
   (cache p, cacheSize p, cacheNegTTL p, cacheMinTTL p, cacheMaxTTL p)).

(** The servers table has an entry under this very name. *)
Definition declared (servers : gomap ServerConfig) (serverName : string) : bool :=
  match lookup servers serverName with
  | Some _ => true
  | None => false
  end.

(** How often a trace shows each collaborator to have been called. *)
Definition constructions {Source : Type} (tr : list (Event Source)) : nat :=
  List.length
    (filter (fun e => match e with NewSourceCall _ _ _ _ _ => true | _ => false end) tr).

Definition parses {Source : Type} (tr : list (Event Source)) : nat :=
  List.length (filter (fun e => match e with ParseCall _ => true | _ => false end) tr).

Definition stampsBuilt {Source : Type} (tr : list (Event Source)) : nat :=
  List.length
    (filter (fun e => match e with
                      | NewServerStampFromLegacyCall _ _ _ => true
                      | _ => false
                      end) tr).

(** Two entries of the servers table under the same name that agree on
    the stamp string, the address, the public key and the provider name. *)
Definition sameServer (entry entry' : string * ServerConfig) : Prop :=
  fst entry = fst entry'
  /\ Stamp (snd entry) = Stamp (snd entry')
  /\ Address (snd entry) = Address (snd entry')
  /\ PublicKey (snd entry) = PublicKey (snd entry')
  /\ ProviderName (snd entry) = ProviderName (snd entry').

(** ** Properties *)

Section Properties.

Context (X : Externals).

(** *** Go maps, names and lengths *)

Lemma lookup_Some_In {V : Type} (m : gomap V) (k : string) (v : V) :
  lookup m k = Some v -> In (k, v) m.
Proof.
  induction m as [|[k' v'] m IH]; simpl; [discriminate|].
  destruct (String.eqb_spec k' k) as [->|_].
  - intros [= ->]. now left.
  - intros H. right. now apply IH.
Qed.

Lemma lookup_None_iff {V : Type} (m : gomap V) (k : string) :
  lookup m k = None <-> ~ In k (keys m).
Proof.
  induction m as [|[k' v'] m IH]; simpl.
  - tauto.
  - destruct (String.eqb_spec k' k) as [->|Hne].
    + split; [discriminate | intros H; exfalso; apply H; now left].
    + rewrite IH. tauto.
Qed.

Lemma In_keys {V : Type} (m : gomap V) (k : string) :
  In k (keys m) <-> exists v, In (k, v) m.
Proof.
  unfold keys. rewrite in_map_iff. split.
  - intros [[k' v] [Hk Hin]]. simpl in Hk. subst. now exists v.
  - intros [v Hin]. now exists (k, v).
Qed.

Lemma includesName_true_iff (names : list string) (n : string) :
  includesName X names n = true <->
  exists found, In found names /\ EqualFold X found n = true.
Proof.
  induction names as [|found rest IH]; simpl.
  - split; [discriminate | intros [? [[] _]]].
  - destruct (EqualFold X found n) eqn:E.
    + split; [intros _; exists found; auto | reflexivity].
    + rewrite IH. split.
      * intros [f [Hin Hf]]. exists f. auto.
      * intros [f [[<-|Hin] Hf]]; [congruence | exists f; auto].
Qed.

Lemma append_keys {V : Type} (m : gomap V) (names : list string) :
  fold_left (fun names entry => names ++ [fst entry]) m names
  = names ++ keys m.
Proof.
  revert names. induction m as [|e m IH]; intros names; simpl.
  - now rewrite app_nil_r.
  - rewrite IH, <- app_assoc. reflexivity.
Qed.

Lemma length_eqb_0 {A : Type} (l : list A) :
  (List.length l =? 0)%nat = true <-> l = [].
Proof.
  rewrite Nat.eqb_eq. apply length_zero_iff_nil.
Qed.

Lemma nonempty_length (s : string) :
  (0 <? String.length s)%nat = true <-> s <> "".
Proof.
  destruct s as [|c s]; simpl.
  - split; [discriminate | intros H; now contradiction H].
  - split; [discriminate | reflexivity].
Qed.

(** *** The loops, piece by piece *)

Lemma sourcesLoop_app (names : list string) (before after : gomap SourceConfig)
      (st : State X) :
  sourcesLoop X names (before ++ after) st
  = match sourcesLoop X names before st with
    | Next st' => sourcesLoop X names after st'
    | stop => stop
    end.
Proof.
  revert st. induction before as [|[n s] before IH]; intros st; simpl.
  - reflexivity.
  - destruct (sourceStep X names n s st); auto.
Qed.

Lemma serversLoop_app (servers : gomap ServerConfig) (before after : list string)
      (st : State X) :
  serversLoop X servers (before ++ after) st
  = match serversLoop X servers before st with
    | Next st' => serversLoop X servers after st'
    | stop => stop
    end.
Proof.
  revert st. induction before as [|n before IH]; intros st; simpl.
  - reflexivity.
  - destruct (serverStep X servers n st); auto.
Qed.

(** Once the file is decoded and a listen address is there, the load is
    the two passes and the last check. *)
Lemma ConfigLoad_decoded (st : State X) (config_file : string) (config : Config) :
  decoded X st = Ok config ->
  ListenAddresses config <> [] ->
  ConfigLoad X st config_file
  = resolve X config (wantedNames config) (ready X config st).
Proof.
  unfold decoded, ready, ConfigLoad. simpl. intros -> Hlisten.
  destruct (List.length (ListenAddresses config) =? 0)%nat eqn:E; [|reflexivity].
  apply length_eqb_0 in E. contradiction.
Qed.

(** *** Which file is read *)

Lemma decodedPaths_app (tr tr' : Trace X) :
  decodedPaths (tr ++ tr') = decodedPaths tr ++ decodedPaths tr'.
Proof.
  apply flat_map_app.
Qed.

Lemma registerWanted_decodes (names : list string) (servers : list (Server X))
      (st : State X) :
  decodedPaths (trace (registerWanted X names servers st)) = decodedPaths (trace st).
Proof.
  unfold registerWanted. revert st.
  induction servers as [|server servers IH]; intros st; simpl; [reflexivity|].
  rewrite IH. unfold registerIfWanted.
  destruct (includesName X names (name server)); simpl; [|reflexivity].
  rewrite decodedPaths_app. simpl. now rewrite app_nil_r.
Qed.

Lemma sourceStep_decodes (names : list string) (sourceName : string)
      (source : SourceConfig) (st : State X) :
  decodedPaths (trace (stateOf (sourceStep X names sourceName source st)))
  = decodedPaths (trace st).
Proof.
  unfold sourceStep.
  repeat match goal with
         | |- context [if String.eqb ?a ?b then _ else _] =>
             destruct (String.eqb a b); [reflexivity|]
         end.
  simpl.
  destruct (NewSource X _ _ _ _ _ _) as [src|err]; simpl.
  - destruct (Parse X _ src) as [servers|err]; simpl.
    + rewrite registerWanted_decodes. simpl.
      rewrite !decodedPaths_app. simpl. now rewrite !app_nil_r.
    + rewrite !decodedPaths_app. simpl. now rewrite !app_nil_r.
  - rewrite !decodedPaths_app. simpl. now rewrite !app_nil_r.
Qed.

Lemma sourcesLoop_decodes (names : list string) (sources : gomap SourceConfig)
      (st : State X) :
  decodedPaths (trace (stateOf (sourcesLoop X names sources st)))
  = decodedPaths (trace st).
Proof.
  revert st. induction sources as [|[n s] sources IH]; intros st; simpl.
  - reflexivity.
  - pose proof (sourceStep_decodes names n s st) as H.
    destruct (sourceStep X names n s st) as [st'|st' err|st']; simpl in *; auto.
    now rewrite IH.
Qed.

Lemma serverStep_decodes (servers : gomap ServerConfig) (serverName : string)
      (st : State X) :
  decodedPaths (trace (stateOf (serverStep X servers serverName st)))
  = decodedPaths (trace st).
Proof.
  unfold serverStep.
  destruct (lookup servers serverName) as [serverConfig|]; [|reflexivity].
  destruct (0 <? String.length (Stamp serverConfig))%nat; simpl.
  - rewrite decodedPaths_app. simpl. now rewrite app_nil_r.
  - destruct (NewServerStampFromLegacy X _ _ _ _) as [built|err]; simpl;
      rewrite decodedPaths_app; simpl; now rewrite app_nil_r.
Qed.

Lemma serversLoop_decodes (servers : gomap ServerConfig) (names : list string)
      (st : State X) :
  decodedPaths (trace (stateOf (serversLoop X servers names st)))
  = decodedPaths (trace st).
Proof.
  revert st. induction names as [|n names IH]; intros st; simpl.
  - reflexivity.
  - pose proof (serverStep_decodes servers n st) as H.
    destruct (serverStep X servers n st) as [st'|st' err|st']; simpl in *; auto.
    now rewrite IH.
Qed.

Lemma resolve_decodes (config : Config) (names : list string) (st : State X) :
  decodedPaths (trace (fst (resolve X config names st))) = decodedPaths (trace st).
Proof.
  unfold resolve.
  pose proof (sourcesLoop_decodes names (SourcesConfig config) st) as H1.
  destruct (sourcesLoop X names (SourcesConfig config) st) as [st1|st1 err|st1];
    simpl in *; auto.
  unfold resolveServers.
  pose proof (serversLoop_decodes (ServersConfig config) names st1) as H2.
  destruct (serversLoop X (ServersConfig config) names st1) as [st2|st2 err|st2];
    simpl in *; try congruence.
  unfold checkRegistry.
  destruct (List.length (registeredServers (proxy st2)) =? 0)%nat; simpl; congruence.
Qed.

(** C2, as the code has it: whatever path is passed as [config_file], the
    one file [ConfigLoad] hands to the decoder is the one the [-config]
    flag of the command line names, "dnscrypt-proxy.toml" when the flag is
    not given; the argument changes nothing in what the load does or
    returns. *)
Theorem config_file_comes_from_flag (st : State X) (config_file : string) :
  decodedPaths (trace (fst (ConfigLoad X st config_file)))
  = decodedPaths (trace st) ++ [flag_String (configFlag X) "dnscrypt-proxy.toml"]
  /\ forall other : string, ConfigLoad X st other = ConfigLoad X st config_file.
Proof.
  split; [|reflexivity].
  unfold ConfigLoad. simpl. fold (configFile X).
  destruct (DecodeFile X (trace st) (configFile X) newConfig) as [config|err]; simpl.
  - destruct (List.length (ListenAddresses config) =? 0)%nat; simpl.
    + now rewrite decodedPaths_app.
    + rewrite resolve_decodes. simpl. now rewrite decodedPaths_app.
  - now rewrite decodedPaths_app.
Qed.

(** *** Settings and wanted names *)

(** C9: when the decoded configuration, the defaults overridden by the
    file, has no listen address, [ConfigLoad] returns the error "No local
    IP/port configured" (the spec's "no listen address configured") with
    nothing done but the decoding and the three transport settings: no
    source and no server has been resolved, and the registry is as it
    was. *)
Theorem no_listen_address_is_fatal
        (st : State X) (config_file : string) (config : Config) :
  decoded X st = Ok config ->
  ListenAddresses config = [] ->
  ConfigLoad X st config_file
    = (withTransport X config (emit X (DecodeFileCall (configFile X)) st),
       Returned (Some (errors_New "No local IP/port configured")))
  /\ trace (fst (ConfigLoad X st config_file))
     = trace st ++ [DecodeFileCall (configFile X)]
  /\ registeredServers (proxy (fst (ConfigLoad X st config_file)))
     = registeredServers (proxy st).
Proof.
  intros Hdec Hlisten.
  assert (ConfigLoad X st config_file
          = (withTransport X config (emit X (DecodeFileCall (configFile X)) st),
             Returned (Some (errors_New "No local IP/port configured")))) as Hload.
  { unfold decoded in Hdec. unfold ConfigLoad. simpl in *.
    rewrite Hdec, Hlisten. reflexivity. }
  rewrite Hload. repeat split.
Qed.

(** C8: when the configuration lists no server names, the wanted names are
    the keys of the servers table, each of them and nothing else; when it
    lists some, they are the wanted names; in both cases a wanted name is a
    listed name or a key of the servers table, so that no name is wanted
    merely because a source announces it. *)
Theorem wanted_names_default (config : Config) :
  (ServerNames config = [] ->
   wantedNames config = keys (ServersConfig config)
   /\ forall n : string,
        In n (wantedNames config) <->
        exists serverConfig, In (n, serverConfig) (ServersConfig config))
  /\ (ServerNames config <> [] -> wantedNames config = ServerNames config)
  /\ (forall n : string,
         In n (wantedNames config) ->
         In n (ServerNames config) \/ In n (keys (ServersConfig config))).
Proof.
  unfold wantedNames. rewrite append_keys.
  destruct (ServerNames config) as [|n0 names] eqn:E; simpl.
  - split; [|split]; try congruence.
    + intros _. split; [reflexivity|]. intros n. apply In_keys.
    + intros n Hin. now right.
  - split; [|split]; try congruence.
    intros n Hin. now left.
Qed.

(** *** The sources *)

Lemma firstMissing_None (source : SourceConfig) :
  firstMissing source = None ->
  String.eqb (URL source) "" = false
  /\ String.eqb (MinisignKeyStr source) "" = false
  /\ String.eqb (CacheFile source) "" = false
  /\ String.eqb (FormatStr source) "" = false.
Proof.
  unfold firstMissing.
  destruct (String.eqb (URL source) ""); [discriminate|].
  destruct (String.eqb (MinisignKeyStr source) ""); [discriminate|].
  destruct (String.eqb (CacheFile source) ""); [discriminate|].
  destruct (String.eqb (FormatStr source) ""); [discriminate|].
  auto.
Qed.

(** Past the four checks, the body is the two calls and what follows
    them. *)
Lemma sourceStep_complete (names : list string) (sourceName : string)
      (source : SourceConfig) (st : State X) :
  firstMissing source = None ->
  sourceStep X names sourceName source st
  = let (st1, constructed) := callNewSource X (defaultRefreshDelay source) st in
    match constructed with
    | Err err => Next (unusable X sourceName err st1)
    | Ok src =>
        let (st2, parsed) := callParse X src st1 in
        match parsed with
        | Err err => Next (unusable X sourceName err st2)
        | Ok servers => Next (registerWanted X names servers st2)
        end
    end.
Proof.
  intros H. destruct (firstMissing_None source H) as (H1 & H2 & H3 & H4).
  unfold sourceStep. now rewrite H1, H2, H3, H4.
Qed.

Lemma sourceStep_missing (names : list string) (sourceName : string)
      (source : SourceConfig) (st : State X) (field : string) :
  firstMissing source = Some field ->
  sourceStep X names sourceName source st = Return st (missing field sourceName).
Proof.
  unfold firstMissing, sourceStep.
  destruct (String.eqb (URL source) ""); [now intros [= <-]|].
  destruct (String.eqb (MinisignKeyStr source) ""); [now intros [= <-]|].
  destruct (String.eqb (CacheFile source) ""); [now intros [= <-]|].
  destruct (String.eqb (FormatStr source) ""); [now intros [= <-]|].
  discriminate.
Qed.

(** A source with its four fields never makes the load return. *)
Lemma sourceStep_complete_Next (names : list string) (sourceName : string)
      (source : SourceConfig) (st : State X) :
  firstMissing source = None ->
  exists st', sourceStep X names sourceName source st = Next st'.
Proof.
  intros H. rewrite (sourceStep_complete names sourceName source st H). simpl.
  destruct (NewSource X _ _ _ _ _ _) as [src|err]; [|eauto].
  destruct (Parse X _ src) as [servers|err]; eauto.
Qed.

(** The sources pass stops at the first source, in the order of the pass,
    that lacks a field. *)
Lemma sourcesLoop_incomplete (names : list string) (sources : gomap SourceConfig) :
  (exists n s, In (n, s) sources /\ firstMissing s <> None) ->
  forall st : State X,
  exists st' n s field,
    In (n, s) sources /\ firstMissing s = Some field
    /\ sourcesLoop X names sources st = Return st' (missing field n).
Proof.
  induction sources as [|[n0 s0] sources IH]; intros (n & s & Hin & Hmiss) st.
  - destruct Hin.
  - simpl. destruct (firstMissing s0) as [field|] eqn:E0.
    + exists st, n0, s0, field. rewrite (sourceStep_missing _ _ _ _ _ E0).
      split; [now left | split; [exact E0 | reflexivity]].
    + destruct (sourceStep_complete_Next names n0 s0 st E0) as [st1 Hstep].
      rewrite Hstep.
      destruct Hin as [Heq|Hin]; [injection Heq as <- <-; congruence|].
      destruct (IH (ex_intro _ n (ex_intro _ s (conj Hin Hmiss))) st1)
        as (st' & n' & s' & field & Hin' & Hfield & Hloop).
      exists st', n', s', field. split; [now right | split; assumption].
Qed.

(** When the sources pass stands at a source, the load ends the way the
    body ends for it. *)
Lemma ConfigLoad_at_source (config : Config) (st0 st : State X)
      (config_file : string) (before after : gomap SourceConfig)
      (sourceName : string) (source : SourceConfig) :
  SourcesConfig config = before ++ (sourceName, source) :: after ->
  sourcesPassAt X config st0 before st ->
  ConfigLoad X st0 config_file
  = andThen X (sourceStep X (wantedNames config) sourceName source st)
            (fun st' => andThen X (sourcesLoop X (wantedNames config) after st')
                                (resolveServers X config (wantedNames config))).
Proof.
  intros Hsources (Hdec & Hlisten & Hbefore).
  rewrite (ConfigLoad_decoded st0 config_file config Hdec Hlisten).
  unfold resolve. rewrite Hsources, sourcesLoop_app, Hbefore. simpl.
  destruct (sourceStep X (wantedNames config) sourceName source st); reflexivity.
Qed.

Lemma registerWanted_registered (names : list string) (servers : list (Server X))
      (st : State X) :
  registeredServers (proxy (registerWanted X names servers st))
  = registeredServers (proxy st)
       ++ filter (fun server => includesName X names (name server)) servers.
Proof.
  unfold registerWanted. revert st.
  induction servers as [|server servers IH]; intros st; simpl.
  - now rewrite app_nil_r.
  - rewrite IH. unfold registerIfWanted.
    destruct (includesName X names (name server)); simpl.
    + now rewrite <- app_assoc.
    + reflexivity.
Qed.

Lemma registerWanted_trace (names : list string) (servers : list (Server X))
      (st : State X) :
  exists logged : Trace X,
    trace (registerWanted X names servers st) = trace st ++ logged.
Proof.
  unfold registerWanted. revert st.
  induction servers as [|server servers IH]; intros st; simpl.
  - exists []. now rewrite app_nil_r.
  - destruct (IH (registerIfWanted X names st server)) as [logged Hlogged].
    rewrite Hlogged. unfold registerIfWanted.
    destruct (includesName X names (name server)); simpl.
    + eexists. rewrite <- app_assoc. reflexivity.
    + now exists logged.
Qed.

(** C7: the body of the sources loop checks the URL, then the Minisign
    (verification) key, then the cache file, then the format, and returns
    for the first that is empty an error that names the field and the
    source; a load whose sources pass comes to such a source returns that
    error, and a load of a configuration with such a source returns an
    error of this kind for one of them.  A source with its four fields and
    a refresh delay of zero or less is not refused: [NewSource] is called
    for it with a delay of 24 hours. *)
Theorem source_fields_validated
        (names : list string) (sourceName : string) (source : SourceConfig)
        (st : State X) :
  (URL source = "" ->
   sourceStep X names sourceName source st
     = Return st (errors_New ("Missing URL for source [" ++ sourceName ++ "]")))
  /\ (URL source <> "" -> MinisignKeyStr source = "" ->
      sourceStep X names sourceName source st
        = Return st (errors_New ("Missing Minisign key for source ["
                                   ++ sourceName ++ "]")))
  /\ (URL source <> "" -> MinisignKeyStr source <> "" -> CacheFile source = "" ->
      sourceStep X names sourceName source st
        = Return st (errors_New ("Missing cache file for source ["
                                   ++ sourceName ++ "]")))
  /\ (URL source <> "" -> MinisignKeyStr source <> "" -> CacheFile source <> "" ->
      FormatStr source = "" ->
      sourceStep X names sourceName source st
        = Return st (errors_New ("Missing format for source [" ++ sourceName ++ "]")))
  /\ (forall (field : string) (config : Config) (st0 : State X)
             (config_file : string) (before after : gomap SourceConfig),
         firstMissing source = Some field ->
         SourcesConfig config = before ++ (sourceName, source) :: after ->
         sourcesPassAt X config st0 before st ->
         ConfigLoad X st0 config_file
           = (st, Returned (Some (errors_New ("Missing " ++ field ++ " for source ["
                                                ++ sourceName ++ "]")))))
  /\ (forall (config : Config) (st0 : State X) (config_file : string),
         decoded X st0 = Ok config ->
         ListenAddresses config <> [] ->
         In (sourceName, source) (SourcesConfig config) ->
         firstMissing source <> None ->
         exists n s field,
           In (n, s) (SourcesConfig config) /\ firstMissing s = Some field
           /\ snd (ConfigLoad X st0 config_file)
              = Returned (Some (errors_New ("Missing " ++ field ++ " for source ["
                                              ++ n ++ "]"))))
  /\ (firstMissing source = None -> RefreshDelay source <= 0 ->
      exists (st' : State X) (rest : Trace X),
        sourceStep X names sourceName source st = Next st'
        /\ trace st'
           = trace st
               ++ NewSourceCall (URL source) (MinisignKeyStr source)
                    (CacheFile source) (FormatStr source) (24 * Hour)
               :: rest).
Proof.
  assert (forall field, firstMissing source = Some field ->
            sourceStep X names sourceName source st
            = Return st (missing field sourceName)) as Hmissing.
  { intros field. apply sourceStep_missing. }
  repeat split.
  - intros H1. apply (Hmissing "URL"). unfold firstMissing. now rewrite H1.
  - intros H1 H2. apply (Hmissing "Minisign key"). unfold firstMissing.
    apply String.eqb_neq in H1. now rewrite H1, H2.
  - intros H1 H2 H3. apply (Hmissing "cache file"). unfold firstMissing.
    apply String.eqb_neq in H1, H2. now rewrite H1, H2, H3.
  - intros H1 H2 H3 H4. apply (Hmissing "format"). unfold firstMissing.
    apply String.eqb_neq in H1, H2, H3. now rewrite H1, H2, H3, H4.
  - intros field config st0 config_file before after Hfield Hsources Hat.
    rewrite (ConfigLoad_at_source config st0 st config_file before after
                                  sourceName source Hsources Hat).
    now rewrite (sourceStep_missing _ _ _ _ _ Hfield).
  - intros config st0 config_file Hdec Hlisten Hin Hfield.
    rewrite (ConfigLoad_decoded st0 config_file config Hdec Hlisten).
    destruct (sourcesLoop_incomplete (wantedNames config) (SourcesConfig config)
                (ex_intro _ sourceName (ex_intro _ source (conj Hin Hfield)))
                (ready X config st0))
      as (st' & n & s & field & Hin' & Hfield' & Hloop).
    exists n, s, field. split; [exact Hin'|]. split; [exact Hfield'|].
    unfold resolve. now rewrite Hloop.
  - intros Hfields Hdelay.
    rewrite (sourceStep_complete names sourceName source st Hfields).
    unfold defaultRefreshDelay. apply Z.leb_le in Hdelay. rewrite Hdelay.
    unfold callNewSource. cbn [URL MinisignKeyStr CacheFile FormatStr RefreshDelay].
    change (times 24 Hour) with (24 * Hour).
    destruct (NewSource X _ _ _ _ _ _) as [src|err].
    + unfold callParse. destruct (Parse X _ src) as [servers|err].
      * destruct (registerWanted_trace names servers
                    (emit X (ParseCall src)
                       (emit X (NewSourceCall (URL source) (MinisignKeyStr source)
                                  (CacheFile source) (FormatStr source) (24 * Hour))
                             st))) as [logged Htrace].
        eexists. eexists. split; [reflexivity|]. rewrite Htrace. simpl.
        rewrite <- !app_assoc. reflexivity.
      * eexists. eexists. split; [reflexivity|]. simpl.
        rewrite <- !app_assoc. reflexivity.
    + eexists. eexists. split; [reflexivity|]. simpl.
      rewrite <- !app_assoc. reflexivity.
Qed.

(** C6: for a source with its four fields, an error of [NewSource] or of
    [Parse] makes the body of the sources loop fall through with the proxy,
    and so the registry, exactly as it was; a load whose sources pass comes
    to that source goes on with the sources after it and then with the
    servers declared one by one. *)
Theorem source_failure_is_skipped
        (names : list string) (sourceName : string) (source : SourceConfig)
        (st : State X) :
  firstMissing source = None ->
  (exists err, snd (callNewSource X (defaultRefreshDelay source) st) = Err err)
  \/ (exists src err,
         snd (callNewSource X (defaultRefreshDelay source) st) = Ok src
         /\ snd (callParse X src (fst (callNewSource X (defaultRefreshDelay source) st)))
            = Err err) ->
  exists st' : State X,
    sourceStep X names sourceName source st = Next st'
    /\ proxy st' = proxy st
    /\ (forall (config : Config) (st0 : State X) (config_file : string)
               (before after : gomap SourceConfig),
           wantedNames config = names ->
           SourcesConfig config = before ++ (sourceName, source) :: after ->
           sourcesPassAt X config st0 before st ->
           ConfigLoad X st0 config_file
             = andThen X (sourcesLoop X names after st')
                       (resolveServers X config names)).
Proof.
  intros Hfields Hfails.
  assert (exists st', sourceStep X names sourceName source st = Next st'
                      /\ proxy st' = proxy st) as (st' & Hstep & Hproxy).
  { rewrite (sourceStep_complete names sourceName source st Hfields).
    simpl in *.
    destruct Hfails as [[err Hsrc]|(src & err & Hsrc & Hparse)]; rewrite Hsrc.
    - eexists. split; reflexivity.
    - rewrite Hparse. eexists. split; reflexivity. }
  exists st'. split; [exact Hstep|]. split; [exact Hproxy|].
  intros config st0 config_file before after <- Hsources Hat.
  rewrite (ConfigLoad_at_source config st0 st config_file before after
                                sourceName source Hsources Hat).
  now rewrite Hstep.
Qed.

(** C4: when a source yields its list of servers, the body of the sources
    loop falls through with the registry extended by exactly those servers
    of the list, in the order of the list, whose name the names given to it
    include; a name is included when and only when [strings.EqualFold]
    equates it with one of these names.  The names [ConfigLoad] gives to
    the body are the wanted names: a load whose sources pass comes to the
    source goes on, from the state so extended, with the sources after it
    and then with the servers declared one by one. *)
Theorem source_candidates_filtered
        (names : list string) (sourceName : string) (source : SourceConfig)
        (st : State X) (src : Source X) (servers : list (Server X)) :
  firstMissing source = None ->
  snd (callNewSource X (defaultRefreshDelay source) st) = Ok src ->
  snd (callParse X src (fst (callNewSource X (defaultRefreshDelay source) st)))
    = Ok servers ->
  exists st',
    sourceStep X names sourceName source st = Next st'
    /\ registeredServers (proxy st')
       = registeredServers (proxy st)
            ++ filter (fun server => includesName X names (name server)) servers
    /\ (forall server : Server X,
           includesName X names (name server) = true <->
           exists wanted, In wanted names /\ EqualFold X wanted (name server) = true)
    /\ (forall (config : Config) (st0 : State X) (config_file : string)
               (before after : gomap SourceConfig),
           wantedNames config = names ->
           SourcesConfig config = before ++ (sourceName, source) :: after ->
           sourcesPassAt X config st0 before st ->
           registeredServers (proxy st')
             = registeredServers (proxy st)
                 ++ filter (fun server =>
                              includesName X (wantedNames config) (name server))
                           servers
           /\ ConfigLoad X st0 config_file
              = andThen X (sourcesLoop X (wantedNames config) after st')
                        (resolveServers X config (wantedNames config))).
Proof.
  intros Hfields Hsrc Hparse.
  assert (sourceStep X names sourceName source st
          = Next (registerWanted X names servers
                    (fst (callParse X src
                            (fst (callNewSource X (defaultRefreshDelay source) st))))))
    as Hstep.
  { rewrite (sourceStep_complete names sourceName source st Hfields).
    simpl in Hsrc, Hparse. simpl. now rewrite Hsrc, Hparse. }
  eexists. split; [exact Hstep|]. split; [|split].
  - now rewrite registerWanted_registered.
  - intros server. apply includesName_true_iff.
  - intros config st0 config_file before after Hnames Hsources Hat. split.
    + rewrite Hnames. now rewrite registerWanted_registered.
    + rewrite (ConfigLoad_at_source config st0 st config_file before after
                                    sourceName source Hsources Hat).
      rewrite Hnames, Hstep. reflexivity.
Qed.

(** *** The servers declared one by one *)

Lemma serverStep_stamp (servers : gomap ServerConfig) (serverName : string)
      (serverConfig : ServerConfig) (st : State X) :
  lookup servers serverName = Some serverConfig ->
  Stamp serverConfig <> "" ->
  serverStep X servers serverName st
  = Exit (emit X (Log SeverityFatal "Stamps are not implemented yet") st).
Proof.
  intros Hlookup Hstamp. unfold serverStep. rewrite Hlookup.
  apply nonempty_length in Hstamp. now rewrite Hstamp.
Qed.

(** The servers pass does not get past a name whose entry holds a stamp
    string. *)
Lemma serversLoop_stamp (servers : gomap ServerConfig) (serverName : string)
      (serverConfig : ServerConfig) (names : list string) :
  lookup servers serverName = Some serverConfig ->
  Stamp serverConfig <> "" ->
  In serverName names ->
  forall st st' : State X, serversLoop X servers names st <> Next st'.
Proof.
  intros Hlookup Hstamp. induction names as [|n names IH]; intros Hin st st'.
  - destruct Hin.
  - simpl. destruct Hin as [->|Hin].
    + rewrite (serverStep_stamp _ _ _ st Hlookup Hstamp). discriminate.
    + destruct (serverStep X servers n st) as [st1|st1 err|st1];
        [now apply IH | discriminate | discriminate].
Qed.

(** When the servers pass stands at [serverName], the load ends the way
    the body ends for it. *)
Lemma ConfigLoad_at_server (config : Config) (st0 st : State X)
      (config_file : string) (before after : list string) (serverName : string) :
  wantedNames config = before ++ serverName :: after ->
  serversPassAt X config st0 before st ->
  ConfigLoad X st0 config_file
  = andThen X (serverStep X (ServersConfig config) serverName st)
            (fun st' => andThen X (serversLoop X (ServersConfig config) after st')
                                (checkRegistry X)).
Proof.
  intros Hnames (st1 & (Hdec & Hlisten & Hsources) & Hbefore).
  rewrite (ConfigLoad_decoded st0 config_file config Hdec Hlisten).
  unfold resolve. rewrite Hsources. simpl. unfold resolveServers.
  rewrite Hnames, serversLoop_app, Hbefore. simpl.
  destruct (serverStep X (ServersConfig config) serverName st); reflexivity.
Qed.

Lemma lookup_In_NoDup {V : Type} (m : gomap V) (k : string) (v : V) :
  NoDup (keys m) -> In (k, v) m -> lookup m k = Some v.
Proof.
  induction m as [|[k' v'] m IH]; simpl; [intros _ []|].
  intros Hnodup Hin. inversion Hnodup as [|? ? Hnot Hrest]; subst.
  destruct (String.eqb_spec k' k) as [->|Hne].
  - destruct Hin as [[= ->]|Hin]; [reflexivity|].
    exfalso. apply Hnot. apply In_keys. now exists v.
  - destruct Hin as [[= Hk _]|Hin]; [contradiction | now apply IH].
Qed.

(** A name that has an entry is not passed over: whichever way the body
    ends, something has been done. *)
Lemma serverStep_declared (servers : gomap ServerConfig) (serverName : string)
      (serverConfig : ServerConfig) (st : State X) :
  lookup servers serverName = Some serverConfig ->
  serverStep X servers serverName st <> Next st.
Proof.
  intros Hlookup. unfold serverStep. rewrite Hlookup.
  destruct (0 <? String.length (Stamp serverConfig))%nat; [discriminate|].
  simpl. destruct (NewServerStampFromLegacy X _ _ _ _) as [built|err];
    [|discriminate].
  intros [= H]. apply (f_equal trace) in H. simpl in H.
  apply (f_equal (@List.length _)) in H. rewrite length_app in H. simpl in H. lia.
Qed.

(** C10: the entry of a wanted name is looked up by equality of the key.
    What the lookup finds is stored under that very name; a name that is a
    key is found, and with distinct keys, as in a Go map, the entry found is
    the one stored under it.  The body of the servers loop falls through
    with the state untouched (no error, no server registered, nothing
    logged) exactly when the wanted name is no key of the table, and the
    load then goes on with the names after it.  This is so even when the
    table has a key that [strings.EqualFold] equates with the name, a key
    that [includesName], which filters the servers of the sources, accepts
    for it. *)
Theorem explicit_lookup_is_exact
        (servers : gomap ServerConfig) (serverName : string) (st : State X) :
  (forall serverConfig : ServerConfig,
      lookup servers serverName = Some serverConfig ->
      In (serverName, serverConfig) servers)
  /\ (~ In serverName (keys servers) ->
      serverStep X servers serverName st = Next st)
  /\ (forall key : string,
         In key (keys servers) ->
         EqualFold X key serverName = true ->
         ~ In serverName (keys servers) ->
         serverStep X servers serverName st = Next st
         /\ includesName X (keys servers) serverName = true)
  /\ (In serverName (keys servers) ->
      exists serverConfig : ServerConfig,
        lookup servers serverName = Some serverConfig)
  /\ (NoDup (keys servers) ->
      forall serverConfig : ServerConfig,
        In (serverName, serverConfig) servers ->
        lookup servers serverName = Some serverConfig)
  /\ (serverStep X servers serverName st = Next st ->
      ~ In serverName (keys servers))
  /\ (forall (config : Config) (st0 : State X) (config_file : string)
             (before after : list string),
         ServersConfig config = servers ->
         wantedNames config = before ++ serverName :: after ->
         serversPassAt X config st0 before st ->
         ~ In serverName (keys servers) ->
         ConfigLoad X st0 config_file
           = andThen X (serversLoop X servers after st) (checkRegistry X)).
Proof.
  assert (~ In serverName (keys servers) ->
          serverStep X servers serverName st = Next st) as Hskip.
  { intros Hnot. apply lookup_None_iff in Hnot. unfold serverStep.
    now rewrite Hnot. }
  assert (In serverName (keys servers) ->
          exists serverConfig, lookup servers serverName = Some serverConfig)
    as Hfound.
  { intros Hin. destruct (lookup servers serverName) as [sc|] eqn:E.
    - now exists sc.
    - apply lookup_None_iff in E. contradiction. }
  split; [intros serverConfig; apply lookup_Some_In|].
  split; [exact Hskip|]. split.
  { intros key Hkey Hfold Hnot. split; [now apply Hskip|].
    apply includesName_true_iff. now exists key. }
  split; [exact Hfound|].
  split; [intros Hnodup serverConfig; now apply lookup_In_NoDup|]. split.
  - intros Hstep Hin. destruct (Hfound Hin) as [sc Hlookup].
    exact (serverStep_declared servers serverName sc st Hlookup Hstep).
  - intros config st0 config_file before after <- Hnames Hat Hnot.
    rewrite (ConfigLoad_at_server config st0 st config_file before after
                                  serverName Hnames Hat).
    now rewrite (Hskip Hnot).
Qed.

(** C3, as the code has it: a wanted name whose entry in the servers table
    holds a non-empty stamp string makes the body of the servers loop end
    the process through [dlog.Fatal], whatever the other fields of the
    entry hold: the only thing done is the fatal log line, so the stamp
    builder is not called and the registry is left as it was.  A load whose
    servers pass comes to that name ends there, the process with it,
    without any error returned to the caller; and no load of a
    configuration with such a name returns nil. *)
Theorem stamp_string_is_fatal
        (servers : gomap ServerConfig) (serverName : string)
        (serverConfig : ServerConfig) (st : State X) :
  lookup servers serverName = Some serverConfig ->
  Stamp serverConfig <> "" ->
  serverStep X servers serverName st
    = Exit (emit X (Log SeverityFatal "Stamps are not implemented yet") st)
  /\ (forall (config : Config) (st0 : State X) (config_file : string)
             (before after : list string),
         ServersConfig config = servers ->
         wantedNames config = before ++ serverName :: after ->
         serversPassAt X config st0 before st ->
         ConfigLoad X st0 config_file
           = (emit X (Log SeverityFatal "Stamps are not implemented yet") st, Exited))
  /\ (forall (config : Config) (st0 : State X) (config_file : string),
         ServersConfig config = servers ->
         decoded X st0 = Ok config ->
         In serverName (wantedNames config) ->
         snd (ConfigLoad X st0 config_file) <> Returned None).
Proof.
  intros Hlookup Hstamp. split; [now apply serverStep_stamp with serverConfig|].
  split.
  - intros config st0 config_file before after <- Hnames Hat.
    rewrite (ConfigLoad_at_server config st0 st config_file before after
                                  serverName Hnames Hat).
    now rewrite (serverStep_stamp _ _ _ st Hlookup Hstamp).
  - intros config st0 config_file <- Hdec Hin.
    unfold decoded in Hdec. unfold ConfigLoad. simpl in *. rewrite Hdec.
    destruct (List.length (ListenAddresses config) =? 0)%nat; [discriminate|].
    unfold resolve.
    destruct (sourcesLoop X (wantedNames config) (SourcesConfig config) _)
      as [st1|st1 err|st1]; simpl; try discriminate.
    unfold resolveServers.
    pose proof (serversLoop_stamp _ _ _ (wantedNames config) Hlookup Hstamp Hin st1)
      as Hnever.
    destruct (serversLoop X (ServersConfig config) (wantedNames config) st1)
      as [st2|st2 err|st2]; simpl; try discriminate.
    now contradiction (Hnever st2).
Qed.

(** C5: for a wanted name whose entry has no stamp string, an error of the
    stamp builder on the entry's address, public key and provider name
    makes the body of the servers loop return that very error, with nothing
    added to the registry; a load whose servers pass comes to that name
    returns the error in the state the call left, so that none of the names
    after it is looked at. *)
Theorem legacy_failure_is_fatal
        (servers : gomap ServerConfig) (serverName : string)
        (serverConfig : ServerConfig) (st : State X) (err : error) :
  lookup servers serverName = Some serverConfig ->
  Stamp serverConfig = "" ->
  snd (callNewServerStampFromLegacy X serverConfig st) = Err err ->
  serverStep X servers serverName st
    = Return (fst (callNewServerStampFromLegacy X serverConfig st)) err
  /\ registeredServers (proxy (fst (callNewServerStampFromLegacy X serverConfig st)))
     = registeredServers (proxy st)
  /\ (forall (config : Config) (st0 : State X) (config_file : string)
             (before after : list string),
         ServersConfig config = servers ->
         wantedNames config = before ++ serverName :: after ->
         serversPassAt X config st0 before st ->
         ConfigLoad X st0 config_file
           = (fst (callNewServerStampFromLegacy X serverConfig st),
              Returned (Some err))).
Proof.
  intros Hlookup Hstamp Hbuilt.
  assert (serverStep X servers serverName st
          = Return (fst (callNewServerStampFromLegacy X serverConfig st)) err)
    as Hstep.
  { unfold serverStep. rewrite Hlookup, Hstamp. simpl in *. now rewrite Hbuilt. }
  split; [exact Hstep|]. split; [reflexivity|].
  intros config st0 config_file before after <- Hnames Hat.
  rewrite (ConfigLoad_at_server config st0 st config_file before after
                                serverName Hnames Hat).
  now rewrite Hstep.
Qed.

(** *** The last check *)

Lemma checkRegistry_spec (st : State X) :
  fst (checkRegistry X st) = st
  /\ (snd (checkRegistry X st) = Returned (Some (errors_New "No servers configured"))
      <-> registeredServers (proxy st) = [])
  /\ (snd (checkRegistry X st) = Returned None
      <-> registeredServers (proxy st) <> []).
Proof.
  unfold checkRegistry.
  destruct (List.length (registeredServers (proxy st)) =? 0)%nat eqn:E; simpl.
  - apply length_eqb_0 in E. rewrite E. repeat split; auto; try discriminate.
    intros H. now contradiction H.
  - assert (registeredServers (proxy st) <> []) as Hne.
    { intros H. apply length_eqb_0 in H. congruence. }
    repeat split; auto; try discriminate. intros H. contradiction.
Qed.

Lemma andThen_checked (flow : Flow X) :
  snd (andThen X flow (checkRegistry X)) = Returned None ->
  registeredServers (proxy (fst (andThen X flow (checkRegistry X)))) <> [].
Proof.
  destruct flow as [st|st err|st]; simpl; try discriminate.
  intros H. destruct (checkRegistry_spec st) as (Hst & _ & Hnil).
  rewrite Hst. now apply Hnil.
Qed.

(** C1: once both passes have come to their end, [ConfigLoad] hands back
    the state they left and returns the error "No servers configured" (the
    spec's "no servers configured") exactly when the registry is empty, and
    nil exactly when it is not; and whenever [ConfigLoad] returns nil, the
    registry holds at least one server. *)
Theorem registry_checked_last (st : State X) (config_file : string) :
  (forall (config : Config) (st' : State X),
      serversPassAt X config st (wantedNames config) st' ->
      fst (ConfigLoad X st config_file) = st'
      /\ (snd (ConfigLoad X st config_file)
            = Returned (Some (errors_New "No servers configured"))
          <-> registeredServers (proxy st') = [])
      /\ (snd (ConfigLoad X st config_file) = Returned None
          <-> registeredServers (proxy st') <> []))
  /\ (snd (ConfigLoad X st config_file) = Returned None ->
      (1 <= List.length (registeredServers (proxy (fst (ConfigLoad X st config_file)))))%nat).
Proof.
  split.
  - intros config st' (st1 & (Hdec & Hlisten & Hsources) & Hservers).
    rewrite (ConfigLoad_decoded st config_file config Hdec Hlisten).
    unfold resolve. rewrite Hsources. simpl.
    unfold resolveServers. rewrite Hservers. simpl.
    apply checkRegistry_spec.
  - intros Hnil.
    assert (registeredServers (proxy (fst (ConfigLoad X st config_file))) <> [])
      as Hne.
    { revert Hnil. unfold ConfigLoad. simpl.
      destruct (DecodeFile X (trace st) (configFile X) newConfig) as [config|err];
        [|discriminate].
      destruct (List.length (ListenAddresses config) =? 0)%nat; [discriminate|].
      unfold resolve.
      destruct (sourcesLoop X (wantedNames config) (SourcesConfig config) _)
        as [st1|st1 err|st1]; simpl; try discriminate.
      unfold resolveServers. apply andThen_checked. }
    destruct (registeredServers (proxy (fst (ConfigLoad X st config_file))));
      [congruence | simpl; lia].
Qed.

(** *** What a load leaves in the proxy *)

Lemma registerWanted_settings (names : list string) (servers : list (Server X))
      (st : State X) :
  settingsOf (proxy (registerWanted X names servers st)) = settingsOf (proxy st).
Proof.
  unfold registerWanted. revert st.
  induction servers as [|server servers IH]; intros st; simpl; [reflexivity|].
  rewrite IH. unfold registerIfWanted.
  destruct (includesName X names (name server)); reflexivity.
Qed.

Lemma sourceStep_settings (names : list string) (sourceName : string)
      (source : SourceConfig) (st : State X) :
  settingsOf (proxy (stateOf (sourceStep X names sourceName source st)))
  = settingsOf (proxy st).
Proof.
  unfold sourceStep.
  repeat match goal with
         | |- context [if String.eqb ?a ?b then _ else _] =>
             destruct (String.eqb a b); [reflexivity|]
         end.
  simpl.
  destruct (NewSource X _ _ _ _ _ _) as [src|err]; simpl; [|reflexivity].
  destruct (Parse X _ src) as [servers|err]; simpl; [|reflexivity].
  now rewrite registerWanted_settings.
Qed.

Lemma sourcesLoop_settings (names : list string) (sources : gomap SourceConfig)
      (st : State X) :
  settingsOf (proxy (stateOf (sourcesLoop X names sources st)))
  = settingsOf (proxy st).
Proof.
  revert st. induction sources as [|[n s] sources IH]; intros st; simpl.
  - reflexivity.
  - pose proof (sourceStep_settings names n s st) as H.
    destruct (sourceStep X names n s st) as [st'|st' err|st']; simpl in *; auto.
    now rewrite IH.
Qed.

Lemma serverStep_settings (servers : gomap ServerConfig) (serverName : string)
      (st : State X) :
  settingsOf (proxy (stateOf (serverStep X servers serverName st)))
  = settingsOf (proxy st).
Proof.
  unfold serverStep.
  destruct (lookup servers serverName) as [serverConfig|]; [|reflexivity].
  destruct (0 <? String.length (Stamp serverConfig))%nat; simpl; [reflexivity|].
  destruct (NewServerStampFromLegacy X _ _ _ _) as [built|err]; reflexivity.
Qed.

Lemma serversLoop_settings (servers : gomap ServerConfig) (names : list string)
      (st : State X) :
  settingsOf (proxy (stateOf (serversLoop X servers names st)))
  = settingsOf (proxy st).
Proof.
  revert st. induction names as [|n names IH]; intros st; simpl.
  - reflexivity.
  - pose proof (serverStep_settings servers n st) as H.
    destruct (serverStep X servers n st) as [st'|st' err|st']; simpl in *; auto.
    now rewrite IH.
Qed.

Lemma resolve_settings (config : Config) (names : list string) (st : State X) :
  settingsOf (proxy (fst (resolve X config names st))) = settingsOf (proxy st).
Proof.
  unfold resolve.
  pose proof (sourcesLoop_settings names (SourcesConfig config) st) as H1.
  destruct (sourcesLoop X names (SourcesConfig config) st) as [st1|st1 err|st1];
    simpl in *; auto.
  unfold resolveServers.
  pose proof (serversLoop_settings (ServersConfig config) names st1) as H2.
  destruct (serversLoop X (ServersConfig config) names st1) as [st2|st2 err|st2];
    simpl in *; try congruence.
  unfold checkRegistry.
  destruct (List.length (registeredServers (proxy st2)) =? 0)%nat; simpl; congruence.
Qed.

(** Once the file is decoded and a listen address is there, the settings
    of the proxy are those of the configuration, and they stay so to the
    end of the load, however it ends: no source, no server and no error
    after that point touches them. *)
Theorem settings_survive_resolution
        (st : State X) (config_file : string) (config : Config) :
  decoded X st = Ok config ->
  ListenAddresses config <> [] ->
  settingsOf (proxy (fst (ConfigLoad X st config_file)))
  = (times (Timeout config) Millisecond,
     (if ForceTCP config then "tcp" else "udp"),
     times (CertRefreshDelay config) Minute,
     ListenAddresses config,
     (Daemonize config, BlockIPv6 config),
     (Cache config, CacheSize config, CacheNegTTL config, CacheMinTTL config,
      CacheMaxTTL config)).
Proof.
  intros Hdec Hlisten.
  rewrite (ConfigLoad_decoded st config_file config Hdec Hlisten).
  rewrite resolve_settings. reflexivity.
Qed.

(** Whenever [ConfigLoad] returns nil, the proxy has at least one listen
    address and its transport is "tcp" or "udp". *)
Theorem listen_address_on_success (st : State X) (config_file : string) :
  snd (ConfigLoad X st config_file) = Returned None ->
  listenAddresses (proxy (fst (ConfigLoad X st config_file))) <> []
  /\ (mainProto (proxy (fst (ConfigLoad X st config_file))) = "tcp"
      \/ mainProto (proxy (fst (ConfigLoad X st config_file))) = "udp").
Proof.
  intros Hnil. revert Hnil.
  destruct (decoded X st) as [config|err] eqn:Hdec.
  - destruct (ListenAddresses config) as [|a l] eqn:Hlisten.
    + unfold decoded in Hdec. unfold ConfigLoad. simpl in *.
      rewrite Hdec, Hlisten. discriminate.
    + assert (ListenAddresses config <> []) as Hne by congruence.
      rewrite (ConfigLoad_decoded st config_file config Hdec Hne). intros _.
      pose proof (resolve_settings config (wantedNames config) (ready X config st))
        as H.
      injection H as _ Hproto _ Haddr _ _ _ _ _ _ _.
      rewrite Haddr, Hproto. simpl. rewrite Hlisten.
      split; [discriminate|]. destruct (ForceTCP config); auto.
  - unfold decoded in Hdec. unfold ConfigLoad. simpl in *. rewrite Hdec.
    discriminate.
Qed.

(** *** What a load adds to the registry *)

Lemma sourceStep_added (names : list string) (sourceName : string)
      (source : SourceConfig) (st : State X) :
  exists added : list (Server X),
    registeredServers (proxy (stateOf (sourceStep X names sourceName source st)))
    = registeredServers (proxy st) ++ added
    /\ Forall (fun server => includesName X names (name server) = true) added.
Proof.
  assert (exists added : list (Server X),
             registeredServers (proxy st) = registeredServers (proxy st) ++ added
             /\ Forall (fun server => includesName X names (name server) = true) added)
    as Hnone.
  { exists []. split; [now rewrite app_nil_r | constructor]. }
  unfold sourceStep.
  repeat match goal with
         | |- context [if String.eqb ?a ?b then _ else _] =>
             destruct (String.eqb a b); [exact Hnone|]
         end.
  simpl.
  destruct (NewSource X _ _ _ _ _ _) as [src|err]; simpl; [|exact Hnone].
  destruct (Parse X _ src) as [servers|err]; simpl; [|exact Hnone].
  exists (filter (fun server => includesName X names (name server)) servers).
  split; [now rewrite registerWanted_registered|].
  apply Forall_forall. intros server Hin. now apply filter_In in Hin.
Qed.

Lemma sourcesLoop_added (names : list string) (sources : gomap SourceConfig)
      (st : State X) :
  exists added : list (Server X),
    registeredServers (proxy (stateOf (sourcesLoop X names sources st)))
    = registeredServers (proxy st) ++ added
    /\ Forall (fun server => includesName X names (name server) = true) added.
Proof.
  revert st. induction sources as [|[n s] sources IH]; intros st; simpl.
  - exists []. split; [now rewrite app_nil_r | constructor].
  - destruct (sourceStep_added names n s st) as (added & Hadded & Hwanted).
    destruct (sourceStep X names n s st) as [st'|st' err|st']; simpl in *;
      try (exists added; split; assumption).
    destruct (IH st') as (added' & Hadded' & Hwanted').
    exists (added ++ added'). split.
    + now rewrite Hadded', Hadded, app_assoc.
    + apply Forall_app. split; assumption.
Qed.

(** The servers pass, when it falls through, has added one server for each
    wanted name that has an entry, in the order of the wanted names. *)
Lemma serversLoop_Next_added (servers : gomap ServerConfig) (names : list string)
      (st st' : State X) :
  serversLoop X servers names st = Next st' ->
  exists added : list (Server X),
    registeredServers (proxy st') = registeredServers (proxy st) ++ added
    /\ List.map name added = filter (declared servers) names.
Proof.
  revert st. induction names as [|n names IH]; intros st; simpl.
  - intros [= <-]. exists []. split; [now rewrite app_nil_r | reflexivity].
  - unfold serverStep, declared.
    destruct (lookup servers n) as [serverConfig|].
    + destruct (0 <? String.length (Stamp serverConfig))%nat; [discriminate|].
      simpl. destruct (NewServerStampFromLegacy X _ _ _ _) as [built|err];
        [|discriminate].
      intros Hloop. destruct (IH _ Hloop) as (added & Hadded & Hnames).
      exists ({| name := n; stamp := built |} :: added). split.
      * rewrite Hadded. simpl. now rewrite <- app_assoc.
      * simpl. now rewrite Hnames.
    + apply IH.
Qed.

(** However the servers pass ends, what it has added stands under wanted
    names. *)
Lemma serversLoop_added (servers : gomap ServerConfig) (names : list string)
      (st : State X) :
  exists added : list (Server X),
    registeredServers (proxy (stateOf (serversLoop X servers names st)))
    = registeredServers (proxy st) ++ added
    /\ Forall (fun server => In (name server) names) added.
Proof.
  revert st. induction names as [|n names IH]; intros st; simpl.
  - exists []. split; [now rewrite app_nil_r | constructor].
  - unfold serverStep.
    destruct (lookup servers n) as [serverConfig|].
    + destruct (0 <? String.length (Stamp serverConfig))%nat; simpl.
      * exists []. split; [now rewrite app_nil_r | constructor].
      * destruct (NewServerStampFromLegacy X _ _ _ _) as [built|err]; simpl.
        -- match goal with
           | |- context [serversLoop X servers names ?s] =>
               destruct (IH s) as (added & Hadded & Hwanted)
           end.
           exists ({| name := n; stamp := built |} :: added). split.
           ++ rewrite Hadded. simpl. now rewrite <- app_assoc.
           ++ constructor; [now left|].
              eapply Forall_impl; [|exact Hwanted]. intros server H. now right.
        -- exists []. split; [now rewrite app_nil_r | constructor].
    + destruct (IH st) as (added & Hadded & Hwanted).
      exists added. split; [exact Hadded|].
      eapply Forall_impl; [|exact Hwanted]. intros server H. now right.
Qed.

(** The registry only grows, and only by wanted servers: however the load
    ends, the registry it leaves is the registry it was handed followed by
    the servers added, and each server added bears a wanted name or a name
    that [strings.EqualFold] equates with a wanted name. *)
Theorem registry_grows_by_wanted_servers (st : State X) (config_file : string) :
  exists added : list (Server X),
    registeredServers (proxy (fst (ConfigLoad X st config_file)))
    = registeredServers (proxy st) ++ added
    /\ forall config : Config,
         decoded X st = Ok config ->
         Forall (fun server =>
                   exists wanted : string,
                     In wanted (wantedNames config)
                     /\ (wanted = name server
                         \/ EqualFold X wanted (name server) = true))
                added.
Proof.
  unfold decoded, ConfigLoad. simpl.
  destruct (DecodeFile X (trace st) (configFile X) newConfig) as [config|err]; simpl.
  2:{ exists []. split; [now rewrite app_nil_r | discriminate]. }
  destruct (List.length (ListenAddresses config) =? 0)%nat; simpl.
  { exists []. split; [now rewrite app_nil_r | intros ? _; constructor]. }
  unfold resolve.
  match goal with
  | |- context [sourcesLoop X ?names ?sources ?s] =>
      destruct (sourcesLoop_added names sources s) as (fromSources & Hs & Hws);
      destruct (sourcesLoop X names sources s) as [st1|st1 err|st1]
  end; simpl in *.
  2,3: exists fromSources; split; [exact Hs|]; intros c [= <-];
       (eapply Forall_impl; [|exact Hws]); intros server H;
       apply includesName_true_iff in H; destruct H as (w & Hin & Hw);
       exists w; auto.
  unfold resolveServers.
  destruct (serversLoop_added (ServersConfig config) (wantedNames config) st1)
    as (fromServers & He & Hwe).
  assert (registeredServers
            (proxy (fst (andThen X (serversLoop X (ServersConfig config)
                                       (wantedNames config) st1)
                                 (checkRegistry X))))
          = registeredServers
              (proxy (stateOf (serversLoop X (ServersConfig config)
                                 (wantedNames config) st1)))) as Hsame.
  { destruct (serversLoop X (ServersConfig config) (wantedNames config) st1)
      as [st2|st2 err|st2]; simpl; try reflexivity.
    unfold checkRegistry.
    destruct (List.length (registeredServers (proxy st2)) =? 0)%nat; reflexivity. }
  exists (fromSources ++ fromServers). split.
  - now rewrite Hsame, He, Hs, app_assoc.
  - intros c [= <-]. apply Forall_app. split.
    + eapply Forall_impl; [|exact Hws]. intros server H.
      apply includesName_true_iff in H. destruct H as (w & Hin & Hw).
      exists w. auto.
    + eapply Forall_impl; [|exact Hwe]. intros server H.
      exists (name server). auto.
Qed.

(** When [ConfigLoad] returns nil, the registry is what it was handed,
    then servers of the sources, then one server for each wanted name that
    has an entry in the servers table, in the order of the wanted names and
    as often as the name is listed: the declared servers come last and
    nothing is deduplicated. *)
Theorem registry_order_on_success (st : State X) (config_file : string) :
  snd (ConfigLoad X st config_file) = Returned None ->
  exists (config : Config) (fromSources fromServers : list (Server X)),
    decoded X st = Ok config
    /\ registeredServers (proxy (fst (ConfigLoad X st config_file)))
       = registeredServers (proxy st) ++ fromSources ++ fromServers
    /\ Forall (fun server => includesName X (wantedNames config) (name server) = true)
              fromSources
    /\ List.map name fromServers
       = filter (declared (ServersConfig config)) (wantedNames config).
Proof.
  unfold decoded, ConfigLoad. simpl.
  destruct (DecodeFile X (trace st) (configFile X) newConfig) as [config|err]; simpl;
    [|discriminate].
  destruct (List.length (ListenAddresses config) =? 0)%nat; simpl; [discriminate|].
  unfold resolve.
  match goal with
  | |- context [sourcesLoop X ?names ?sources ?s] =>
      destruct (sourcesLoop_added names sources s) as (fromSources & Hs & Hws);
      destruct (sourcesLoop X names sources s) as [st1|st1 err|st1]
  end; simpl in *; try discriminate.
  unfold resolveServers.
  destruct (serversLoop X (ServersConfig config) (wantedNames config) st1)
    as [st2|st2 err|st2] eqn:Hloop; simpl; try discriminate.
  destruct (serversLoop_Next_added _ _ _ _ Hloop) as (fromServers & He & Hnames).
  intros _. exists config, fromSources, fromServers.
  split; [reflexivity|]. split; [|split; assumption].
  assert (fst (checkRegistry X st2) = st2) as -> by apply checkRegistry_spec.
  now rewrite He, Hs, app_assoc.
Qed.

(** *** How a load can end *)

(** The sources pass never ends the process, and the one error it can
    make the load return is a missing field. *)
Lemma sourcesLoop_stops (names : list string) (sources : gomap SourceConfig)
      (st : State X) :
  match sourcesLoop X names sources st with
  | Next _ => True
  | Return _ err =>
      exists n s field,
        In (n, s) sources /\ firstMissing s = Some field /\ err = missing field n
  | Exit _ => False
  end.
Proof.
  revert st. induction sources as [|[n0 s0] sources IH]; intros st; simpl.
  - exact I.
  - destruct (firstMissing s0) as [field|] eqn:E0.
    + rewrite (sourceStep_missing _ _ _ _ _ E0).
      exists n0, s0, field. split; [now left | split; [exact E0 | reflexivity]].
    + destruct (sourceStep_complete_Next names n0 s0 st E0) as [st1 ->].
      specialize (IH st1).
      destruct (sourcesLoop X names sources st1) as [st'|st' err|st']; auto.
      destruct IH as (n & s & field & Hin & Hfield & Herr).
      exists n, s, field. split; [now right | split; assumption].
Qed.

(** The servers pass makes the load return nothing but an error of the
    stamp builder, for a wanted name whose entry has no stamp string, and
    ends the process only at a wanted name whose entry has one, on the
    fatal log line. *)
Lemma serversLoop_stops (servers : gomap ServerConfig) (names : list string)
      (st : State X) :
  match serversLoop X servers names st with
  | Next _ => True
  | Return _ err =>
      exists n serverConfig tr,
        In n names /\ lookup servers n = Some serverConfig
        /\ Stamp serverConfig = ""
        /\ NewServerStampFromLegacy X tr (Address serverConfig)
             (PublicKey serverConfig) (ProviderName serverConfig) = Err err
  | Exit st' =>
      exists n serverConfig tr,
        In n names /\ lookup servers n = Some serverConfig
        /\ Stamp serverConfig <> ""
        /\ trace st' = tr ++ [Log SeverityFatal "Stamps are not implemented yet"]
  end.
Proof.
  revert st. induction names as [|n names IH]; intros st; simpl.
  - exact I.
  - unfold serverStep.
    destruct (lookup servers n) as [serverConfig|] eqn:Hlookup.
    + destruct (0 <? String.length (Stamp serverConfig))%nat eqn:Hstamp; simpl.
      * exists n, serverConfig, (trace st).
        split; [now left|]. split; [exact Hlookup|].
        split; [now apply nonempty_length | reflexivity].
      * assert (Stamp serverConfig = "") as Hempty.
        { destruct (Stamp serverConfig); [reflexivity | discriminate]. }
        destruct (NewServerStampFromLegacy X _ _ _ _) as [built|err] eqn:Hbuilt.
        -- match goal with
           | |- context [serversLoop X servers names ?s] =>
               specialize (IH s); destruct (serversLoop X servers names s)
                 as [st'|st' err|st']
           end; auto.
           ++ destruct IH as (n' & sc & tr & Hin & H). exists n', sc, tr.
              split; [now right | exact H].
           ++ destruct IH as (n' & sc & tr & Hin & H). exists n', sc, tr.
              split; [now right | exact H].
        -- exists n, serverConfig, (trace st).
           split; [now left|]. split; [exact Hlookup|]. split; assumption.
    + specialize (IH st).
      destruct (serversLoop X servers names st) as [st'|st' err|st']; auto.
      * destruct IH as (n' & sc & tr & Hin & H). exists n', sc, tr.
        split; [now right | exact H].
      * destruct IH as (n' & sc & tr & Hin & H). exists n', sc, tr.
        split; [now right | exact H].
Qed.

(** The errors [ConfigLoad] can return are the error of the decoder, the
    error for an empty list of listen addresses, a missing-field error for
    a source that lacks a field, an error of the stamp builder for a wanted
    name whose entry has no stamp string, and the error of the last check,
    with the registry empty.  An error of [NewSource] or of [Parse] is none
    of them unless it happens to be the same error. *)
Theorem errors_returned (st : State X) (config_file : string) (err : error) :
  snd (ConfigLoad X st config_file) = Returned (Some err) ->
  decoded X st = Err err
  \/ exists config : Config,
       decoded X st = Ok config
       /\ ((ListenAddresses config = []
            /\ err = errors_New "No local IP/port configured")
           \/ (exists n s field,
                  In (n, s) (SourcesConfig config) /\ firstMissing s = Some field
                  /\ err = errors_New ("Missing " ++ field ++ " for source ["
                                         ++ n ++ "]"))
           \/ (exists n serverConfig tr,
                  In n (wantedNames config)
                  /\ lookup (ServersConfig config) n = Some serverConfig
                  /\ Stamp serverConfig = ""
                  /\ NewServerStampFromLegacy X tr (Address serverConfig)
                       (PublicKey serverConfig) (ProviderName serverConfig)
                     = Err err)
           \/ (err = errors_New "No servers configured"
               /\ registeredServers (proxy (fst (ConfigLoad X st config_file))) = [])).
Proof.
  unfold decoded, ConfigLoad. simpl.
  destruct (DecodeFile X (trace st) (configFile X) newConfig) as [config|e]; simpl.
  2:{ intros [= ->]. now left. }
  intros H. right. exists config. split; [reflexivity|]. revert H.
  destruct (List.length (ListenAddresses config) =? 0)%nat eqn:Hlisten; simpl.
  { intros [= <-]. left. split; [now apply length_eqb_0 | reflexivity]. }
  unfold resolve.
  match goal with
  | |- context [sourcesLoop X ?names ?sources ?s] =>
      pose proof (sourcesLoop_stops names sources s) as Hsources;
      destruct (sourcesLoop X names sources s) as [st1|st1 e|st1]
  end; simpl; try discriminate.
  2:{ intros [= <-]. right. left. exact Hsources. }
  unfold resolveServers.
  pose proof (serversLoop_stops (ServersConfig config) (wantedNames config) st1)
    as Hservers.
  destruct (serversLoop X (ServersConfig config) (wantedNames config) st1)
    as [st2|st2 e|st2]; simpl; try discriminate.
  2:{ intros [= <-]. right. right. left. exact Hservers. }
  destruct (checkRegistry_spec st2) as (Hst & Herr & Hnil).
  intros H. right. right. right. rewrite Hst.
  unfold checkRegistry in *.
  destruct (List.length (registeredServers (proxy st2)) =? 0)%nat eqn:E;
    simpl in *; [|discriminate].
  injection H as <-. split; [reflexivity | now apply length_eqb_0].
Qed.

(** Once the command line has been read (lines 62-63 are past),
    [ConfigLoad] ends the process through [dlog.Fatal] in one case only:
    the file was decoded, a listen address is there, every source has its
    four fields, and a wanted name has an entry with a stamp string; the
    last thing done is then the fatal log line. *)
Theorem exit_only_on_stamp_string (st : State X) (config_file : string) :
  snd (ConfigLoad X st config_file) = Exited ->
  exists (config : Config) (n : string) (serverConfig : ServerConfig)
         (tr : Trace X),
    decoded X st = Ok config
    /\ ListenAddresses config <> []
    /\ Forall (fun entry => firstMissing (snd entry) = None) (SourcesConfig config)
    /\ In n (wantedNames config)
    /\ lookup (ServersConfig config) n = Some serverConfig
    /\ Stamp serverConfig <> ""
    /\ trace (fst (ConfigLoad X st config_file))
       = tr ++ [Log SeverityFatal "Stamps are not implemented yet"].
Proof.
  unfold decoded, ConfigLoad. simpl.
  destruct (DecodeFile X (trace st) (configFile X) newConfig) as [config|e]; simpl;
    [|discriminate].
  destruct (List.length (ListenAddresses config) =? 0)%nat eqn:Hlisten; simpl;
    [discriminate|].
  assert (ListenAddresses config <> []) as Hne.
  { intros H. apply length_eqb_0 in H. congruence. }
  unfold resolve.
  match goal with
  | |- context [sourcesLoop X ?names ?sources ?s] =>
      pose proof (sourcesLoop_stops names sources s) as Hsources;
      destruct (sourcesLoop X names sources s) as [st1|st1 e|st1] eqn:Hloop
  end; simpl; try discriminate; [|destruct Hsources].
  assert (Forall (fun entry => firstMissing (snd entry) = None) (SourcesConfig config))
    as Hcomplete.
  { apply Forall_forall. intros [n s] Hin. simpl.
    destruct (firstMissing s) as [field|] eqn:E; [|reflexivity].
    assert (firstMissing s <> None) as Hmiss by congruence.
    match type of Hloop with
    | sourcesLoop X ?names ?sources ?s0 = _ =>
        destruct (sourcesLoop_incomplete names sources
                    (ex_intro _ n (ex_intro _ s (conj Hin Hmiss))) s0)
          as (st' & n' & s' & f' & _ & _ & Hret)
    end.
    congruence. }
  unfold resolveServers.
  pose proof (serversLoop_stops (ServersConfig config) (wantedNames config) st1)
    as Hservers.
  destruct (serversLoop X (ServersConfig config) (wantedNames config) st1)
    as [st2|st2 e|st2]; simpl.
  - unfold checkRegistry.
    destruct (List.length (registeredServers (proxy st2)) =? 0)%nat; discriminate.
  - discriminate.
  - intros _. destruct Hservers as (n & sc & tr & Hin & Hlookup & Hstamp & Htrace).
    exists config, n, sc, tr. split; [reflexivity|].
    repeat (split; [assumption|]). assumption.
Qed.

(** *** How often the collaborators are called *)

Ltac count_calls :=
  unfold constructions, parses, stampsBuilt;
  simpl; rewrite ?filter_app, ?length_app; simpl; try lia.

Lemma registerWanted_calls (names : list string) (servers : list (Server X))
      (st : State X) :
  constructions (trace (registerWanted X names servers st)) = constructions (trace st)
  /\ parses (trace (registerWanted X names servers st)) = parses (trace st)
  /\ stampsBuilt (trace (registerWanted X names servers st)) = stampsBuilt (trace st).
Proof.
  unfold registerWanted. revert st.
  induction servers as [|server servers IH]; intros st; simpl; [auto|].
  destruct (IH (registerIfWanted X names st server)) as (H1 & H2 & H3).
  rewrite H1, H2, H3. unfold registerIfWanted.
  destruct (includesName X names (name server)); simpl; [|auto].
  repeat split; count_calls.
Qed.

(** One source: at most one construction, a parse only after it, no stamp;
    the construction is there whenever the body falls through. *)
Lemma sourceStep_calls (names : list string) (sourceName : string)
      (source : SourceConfig) (st : State X) :
  exists a b : nat,
    (b <= a <= 1)%nat
    /\ constructions (trace (stateOf (sourceStep X names sourceName source st)))
       = (constructions (trace st) + a)%nat
    /\ parses (trace (stateOf (sourceStep X names sourceName source st)))
       = (parses (trace st) + b)%nat
    /\ stampsBuilt (trace (stateOf (sourceStep X names sourceName source st)))
       = stampsBuilt (trace st)
    /\ (forall st', sourceStep X names sourceName source st = Next st' -> a = 1%nat).
Proof.
  unfold sourceStep.
  repeat match goal with
         | |- context [if String.eqb ?a ?b then _ else _] =>
             destruct (String.eqb a b);
             [exists 0%nat, 0%nat; simpl; repeat split; try lia; discriminate|]
         end.
  simpl.
  destruct (NewSource X _ _ _ _ _ _) as [src|err]; simpl.
  - destruct (Parse X _ src) as [servers|err]; simpl.
    + match goal with
      | |- context [registerWanted X names servers ?s] =>
          destruct (registerWanted_calls names servers s) as (H1 & H2 & H3)
      end.
      exists 1%nat, 1%nat. rewrite H1, H2, H3. repeat split; count_calls.
    + exists 1%nat, 1%nat. repeat split; count_calls.
  - exists 1%nat, 0%nat. repeat split; count_calls.
Qed.

Lemma sourcesLoop_calls (names : list string) (sources : gomap SourceConfig)
      (st : State X) :
  exists a b : nat,
    (b <= a <= List.length sources)%nat
    /\ constructions (trace (stateOf (sourcesLoop X names sources st)))
       = (constructions (trace st) + a)%nat
    /\ parses (trace (stateOf (sourcesLoop X names sources st)))
       = (parses (trace st) + b)%nat
    /\ stampsBuilt (trace (stateOf (sourcesLoop X names sources st)))
       = stampsBuilt (trace st)
    /\ (forall st', sourcesLoop X names sources st = Next st' ->
        a = List.length sources).
Proof.
  revert st. induction sources as [|[n s] sources IH]; intros st; simpl.
  - exists 0%nat, 0%nat. repeat split; lia.
  - destruct (sourceStep_calls names n s st) as (a & b & Hab & H1 & H2 & H3 & H4).
    destruct (sourceStep X names n s st) as [st1|st1 err|st1]; simpl in *.
    + destruct (IH st1) as (a' & b' & Hab' & H1' & H2' & H3' & H4').
      exists (a + a')%nat, (b + b')%nat.
      rewrite H1', H2', H3', H1, H2, H3.
      repeat split; try lia.
      intros st' Hloop. rewrite (H4 st1 eq_refl), (H4' st' Hloop). reflexivity.
    + exists a, b. repeat split; try lia; try assumption. discriminate.
    + exists a, b. repeat split; try lia; try assumption. discriminate.
Qed.

Lemma serversLoop_calls (servers : gomap ServerConfig) (names : list string)
      (st : State X) :
  exists c : nat,
    (c <= List.length (filter (declared servers) names))%nat
    /\ constructions (trace (stateOf (serversLoop X servers names st)))
       = constructions (trace st)
    /\ parses (trace (stateOf (serversLoop X servers names st))) = parses (trace st)
    /\ stampsBuilt (trace (stateOf (serversLoop X servers names st)))
       = (stampsBuilt (trace st) + c)%nat
    /\ (forall st', serversLoop X servers names st = Next st' ->
        c = List.length (filter (declared servers) names)).
Proof.
  revert st. induction names as [|n names IH]; intros st; simpl.
  - exists 0%nat. repeat split; lia.
  - unfold serverStep, declared in *.
    destruct (lookup servers n) as [serverConfig|]; simpl.
    + destruct (0 <? String.length (Stamp serverConfig))%nat; simpl.
      * exists 0%nat. repeat split; count_calls. discriminate.
      * destruct (NewServerStampFromLegacy X _ _ _ _) as [built|err]; simpl.
        -- match goal with
           | |- context [serversLoop X servers names ?s] =>
               destruct (IH s) as (c & Hc & H1 & H2 & H3 & H4)
           end.
           exists (S c). rewrite H1, H2, H3.
           repeat split; count_calls.
           intros st' Hloop. now rewrite (H4 st' Hloop).
        -- exists 1%nat. repeat split; count_calls. discriminate.
    + apply IH.
Qed.

(** However the load ends, [NewSource] has been called at most once for
    each declared source, [Parse] at most as often as [NewSource], and the
    stamp builder at most once for each wanted name that has an entry in
    the servers table (counted as often as it is listed); nothing is called
    when the file cannot be decoded.  When [ConfigLoad] returns nil,
    [NewSource] has been called exactly once for each source and the stamp
    builder exactly once for each such name. *)
Theorem collaborators_called_once (st : State X) (config_file : string) :
  match decoded X st with
  | Err _ =>
      constructions (trace (fst (ConfigLoad X st config_file)))
        = constructions (trace st)
      /\ parses (trace (fst (ConfigLoad X st config_file))) = parses (trace st)
      /\ stampsBuilt (trace (fst (ConfigLoad X st config_file)))
         = stampsBuilt (trace st)
  | Ok config =>
      exists a b c : nat,
        constructions (trace (fst (ConfigLoad X st config_file)))
          = (constructions (trace st) + a)%nat
        /\ parses (trace (fst (ConfigLoad X st config_file)))
           = (parses (trace st) + b)%nat
        /\ stampsBuilt (trace (fst (ConfigLoad X st config_file)))
           = (stampsBuilt (trace st) + c)%nat
        /\ (b <= a <= List.length (SourcesConfig config))%nat
        /\ (c <= List.length (filter (declared (ServersConfig config))
                                     (wantedNames config)))%nat
        /\ (snd (ConfigLoad X st config_file) = Returned None ->
            a = List.length (SourcesConfig config)
            /\ c = List.length (filter (declared (ServersConfig config))
                                       (wantedNames config)))
  end.
Proof.
  unfold decoded, ConfigLoad. simpl.
  destruct (DecodeFile X (trace st) (configFile X) newConfig) as [config|err]; simpl.
  2:{ repeat split; count_calls. }
  destruct (List.length (ListenAddresses config) =? 0)%nat; simpl.
  { exists 0%nat, 0%nat, 0%nat. repeat split; count_calls; discriminate. }
  unfold resolve.
  match goal with
  | |- context [sourcesLoop X ?names ?sources ?s] =>
      destruct (sourcesLoop_calls names sources s)
        as (a & b & Hab & H1 & H2 & H3 & H4);
      destruct (sourcesLoop X names sources s) as [st1|st1 err|st1]
  end; simpl in *.
  2,3: exists a, b, 0%nat; rewrite H1, H2, H3;
       repeat split; count_calls; discriminate.
  unfold resolveServers.
  destruct (serversLoop_calls (ServersConfig config) (wantedNames config) st1)
    as (c & Hc & H1' & H2' & H3' & H4').
  assert (trace (fst (andThen X (serversLoop X (ServersConfig config)
                                    (wantedNames config) st1) (checkRegistry X)))
          = trace (stateOf (serversLoop X (ServersConfig config)
                              (wantedNames config) st1))) as Hsame.
  { destruct (serversLoop X (ServersConfig config) (wantedNames config) st1)
      as [st2|st2 err|st2]; simpl; try reflexivity.
    unfold checkRegistry.
    destruct (List.length (registeredServers (proxy st2)) =? 0)%nat; reflexivity. }
  exists a, b, c. rewrite Hsame, H1', H2', H3', H1, H2, H3.
  repeat split; count_calls.
  - apply (H4 st1 eq_refl).
  - destruct (serversLoop X (ServersConfig config) (wantedNames config) st1)
      as [st2|st2 err|st2]; simpl in *; try discriminate.
    apply (H4' st2 eq_refl).
Qed.

(** *** Sources in order *)

Lemma sourcesLoop_complete (names : list string) (sources : gomap SourceConfig) :
  Forall (fun entry => firstMissing (snd entry) = None) sources ->
  forall st : State X, exists st', sourcesLoop X names sources st = Next st'.
Proof.
  induction 1 as [|[n s] sources Hs _ IH]; intros st; simpl.
  - now exists st.
  - destruct (sourceStep_complete_Next names n s st Hs) as [st1 ->]. apply IH.
Qed.

(** The first source, in the order of the pass, that lacks a field decides
    the load, whatever the sources before it did: the load returns the
    error that names its first missing field, after [NewSource] has been
    called once for each source before it, and without any call of the
    stamp builder.  No failure of a source can hide the missing field of a
    later one. *)
Theorem first_incomplete_source_decides
        (st : State X) (config_file : string) (config : Config)
        (before after : gomap SourceConfig) (sourceName : string)
        (source : SourceConfig) (field : string) :
  decoded X st = Ok config ->
  ListenAddresses config <> [] ->
  SourcesConfig config = before ++ (sourceName, source) :: after ->
  Forall (fun entry => firstMissing (snd entry) = None) before ->
  firstMissing source = Some field ->
  snd (ConfigLoad X st config_file)
    = Returned (Some (errors_New ("Missing " ++ field ++ " for source ["
                                    ++ sourceName ++ "]")))
  /\ constructions (trace (fst (ConfigLoad X st config_file)))
     = (constructions (trace st) + List.length before)%nat
  /\ stampsBuilt (trace (fst (ConfigLoad X st config_file))) = stampsBuilt (trace st).
Proof.
  intros Hdec Hlisten Hsources Hbefore Hfield.
  rewrite (ConfigLoad_decoded st config_file config Hdec Hlisten).
  unfold resolve. rewrite Hsources, sourcesLoop_app.
  destruct (sourcesLoop_complete (wantedNames config) before Hbefore
                                 (ready X config st)) as [st1 Hloop].
  destruct (sourcesLoop_calls (wantedNames config) before (ready X config st))
    as (a & b & _ & H1 & _ & H3 & H4).
  rewrite Hloop in *. simpl in H1, H3. specialize (H4 st1 eq_refl). subst a.
  simpl. rewrite (sourceStep_missing _ _ _ _ _ Hfield). simpl.
  split; [reflexivity|]. rewrite H1, H3. split; count_calls.
Qed.

(** *** Names *)

(** [includesName] looks at the names as a set: over two lists put end to
    end it is the disjunction of the two answers, and a list that holds
    every name of another includes every name the other includes, whatever
    the order and the repetitions. *)
Theorem includesName_as_a_set (first second names names' : list string)
        (n : string) :
  includesName X (first ++ second) n
    = includesName X first n || includesName X second n
  /\ ((forall wanted, In wanted names -> In wanted names') ->
      includesName X names n = true -> includesName X names' n = true).
Proof.
  split.
  - induction first as [|found first IH]; simpl; [reflexivity|].
    destruct (EqualFold X found n); [reflexivity | exact IH].
  - intros Hsub Hin. apply includesName_true_iff in Hin.
    destruct Hin as (found & Hfound & Hfold).
    apply includesName_true_iff. exists found. split; [now apply Hsub | exact Hfold].
Qed.

(** Without wanted names nothing can be registered: when the file lists
    no server names and declares no server, a load whose sources all have
    their fields returns "No servers configured" if the registry was
    empty, whatever the sources announce; no stamp is built either. *)
Theorem sources_alone_register_nothing
        (st : State X) (config_file : string) (config : Config) :
  decoded X st = Ok config ->
  ListenAddresses config <> [] ->
  wantedNames config = [] ->
  Forall (fun entry => firstMissing (snd entry) = None) (SourcesConfig config) ->
  registeredServers (proxy st) = [] ->
  snd (ConfigLoad X st config_file)
    = Returned (Some (errors_New "No servers configured"))
  /\ registeredServers (proxy (fst (ConfigLoad X st config_file))) = []
  /\ stampsBuilt (trace (fst (ConfigLoad X st config_file))) = stampsBuilt (trace st).
Proof.
  intros Hdec Hlisten Hnames Hcomplete Hempty.
  rewrite (ConfigLoad_decoded st config_file config Hdec Hlisten).
  unfold resolve. rewrite Hnames.
  destruct (sourcesLoop_complete [] (SourcesConfig config) Hcomplete
                                 (ready X config st)) as [st1 Hloop].
  destruct (sourcesLoop_added [] (SourcesConfig config) (ready X config st))
    as (added & Hadded & Hwanted).
  destruct (sourcesLoop_calls [] (SourcesConfig config) (ready X config st))
    as (a & b & _ & _ & _ & H3 & _).
  rewrite Hloop in *. simpl in Hadded, H3. simpl.
  assert (added = []) as ->.
  { destruct added as [|server added]; [reflexivity|].
    apply Forall_inv in Hwanted. discriminate Hwanted. }
  rewrite Hempty in Hadded. simpl in Hadded.
  unfold resolveServers, checkRegistry. simpl. rewrite Hadded. simpl.
  split; [reflexivity|]. split; [exact Hadded|]. rewrite H3. count_calls.
Qed.

(** *** Durations and defaults *)

Lemma times_exact (n unit : Z) :
  - 2 ^ 63 <= n * unit < 2 ^ 63 -> times n unit = n * unit.
Proof.
  intros H. unfold times, wrap64. rewrite Z.mod_small; lia.
Qed.

Lemma times_wrapped (n unit : Z) :
  2 ^ 63 <= n * unit < 3 * 2 ^ 63 -> times n unit = n * unit - 2 ^ 64.
Proof.
  intros H. unfold times, wrap64.
  replace (n * unit + 2 ^ 63) with (n * unit + 2 ^ 63 - 2 ^ 64 + 1 * 2 ^ 64) by lia.
  rewrite Z_mod_plus_full, Z.mod_small; lia.
Qed.

Lemma times_below (n unit : Z) : times n unit < 2 ^ 63.
Proof.
  unfold times, wrap64.
  pose proof (Z.mod_pos_bound (n * unit + 2 ^ 63) (2 ^ 64) ltac:(lia)). lia.
Qed.

(** The three transport settings are assigned as soon as the file is
    decoded, before the listen addresses are looked at. *)
Lemma ConfigLoad_transport (st : State X) (config_file : string) (config : Config) :
  decoded X st = Ok config ->
  timeout (proxy (fst (ConfigLoad X st config_file)))
    = times (Timeout config) Millisecond
  /\ mainProto (proxy (fst (ConfigLoad X st config_file)))
     = (if ForceTCP config then "tcp" else "udp")
  /\ certRefreshDelay (proxy (fst (ConfigLoad X st config_file)))
     = times (CertRefreshDelay config) Minute.
Proof.
  intros Hdec.
  destruct (ListenAddresses config) as [|a l] eqn:Hlisten.
  - unfold decoded in Hdec. unfold ConfigLoad. simpl in *.
    rewrite Hdec, Hlisten. simpl. auto.
  - assert (ListenAddresses config <> []) as Hne by congruence.
    rewrite (ConfigLoad_decoded st config_file config Hdec Hne).
    pose proof (resolve_settings config (wantedNames config) (ready X config st))
      as H.
    injection H as H1 H2 H3 _ _ _ _ _ _ _ _. rewrite H1, H2, H3. auto.
Qed.

Lemma times_above (n unit : Z) : - 2 ^ 63 <= times n unit.
Proof.
  unfold times, wrap64.
  pose proof (Z.mod_pos_bound (n * unit + 2 ^ 63) (2 ^ 64) ltac:(lia)). lia.
Qed.

(** Once the file is decoded, and also when the load then fails, the
    timeout of the proxy is the configured number of milliseconds in
    nanoseconds exactly when that number is at most 9223372036854 in
    absolute value, and the refresh delay of the certificates the
    configured number of minutes in nanoseconds exactly when that number is
    at most 153722867 in absolute value.  Outside these bounds the int64
    product has wrapped around: above them the duration stored is less than
    the configured one, below them it is greater. *)
Theorem transport_durations
        (st : State X) (config_file : string) (config : Config) :
  decoded X st = Ok config ->
  (- 9223372036854 <= Timeout config <= 9223372036854 ->
   timeout (proxy (fst (ConfigLoad X st config_file))) = Timeout config * 1000000)
  /\ (9223372036854 < Timeout config ->
      timeout (proxy (fst (ConfigLoad X st config_file))) < Timeout config * 1000000)
  /\ (Timeout config < - 9223372036854 ->
      Timeout config * 1000000 < timeout (proxy (fst (ConfigLoad X st config_file))))
  /\ (- 153722867 <= CertRefreshDelay config <= 153722867 ->
      certRefreshDelay (proxy (fst (ConfigLoad X st config_file)))
        = CertRefreshDelay config * 60000000000)
  /\ (153722867 < CertRefreshDelay config ->
      certRefreshDelay (proxy (fst (ConfigLoad X st config_file)))
        < CertRefreshDelay config * 60000000000)
  /\ (CertRefreshDelay config < - 153722867 ->
      CertRefreshDelay config * 60000000000
        < certRefreshDelay (proxy (fst (ConfigLoad X st config_file)))).
Proof.
  intros Hdec.
  destruct (ConfigLoad_transport st config_file config Hdec) as (Ht & _ & Hc).
  rewrite Ht, Hc. unfold Millisecond, Minute.
  change (60 * 1000000000) with 60000000000.
  repeat split; intros H.
  - apply times_exact. lia.
  - pose proof (times_below (Timeout config) 1000000). lia.
  - pose proof (times_above (Timeout config) 1000000). lia.
  - apply times_exact. lia.
  - pose proof (times_below (CertRefreshDelay config) 60000000000). lia.
  - pose proof (times_above (CertRefreshDelay config) 60000000000). lia.
Qed.

Lemma sourceStep_first_call (names : list string) (sourceName : string)
      (source : SourceConfig) (st : State X) :
  firstMissing source = None ->
  exists (st' : State X) (rest : Trace X),
    sourceStep X names sourceName source st = Next st'
    /\ trace st'
       = trace st
           ++ NewSourceCall (URL source) (MinisignKeyStr source) (CacheFile source)
                (FormatStr source)
                (times (if RefreshDelay source <=? 0 then 24 else RefreshDelay source)
                       Hour)
           :: rest.
Proof.
  intros Hfields.
  rewrite (sourceStep_complete names sourceName source st Hfields).
  assert (defaultRefreshDelay source
          = {| URL := URL source;
               MinisignKeyStr := MinisignKeyStr source;
               CacheFile := CacheFile source;
               FormatStr := FormatStr source;
               RefreshDelay := if RefreshDelay source <=? 0 then 24
                               else RefreshDelay source |}) as ->.
  { unfold defaultRefreshDelay.
    destruct (RefreshDelay source <=? 0); [reflexivity | now destruct source]. }
  unfold callNewSource. cbn [URL MinisignKeyStr CacheFile FormatStr RefreshDelay].
  destruct (NewSource X _ _ _ _ _ _) as [src|err].
  - unfold callParse. destruct (Parse X _ src) as [servers|err].
    + match goal with
      | |- context [registerWanted X names servers ?s] =>
          destruct (registerWanted_trace names servers s) as [logged Htrace]
      end.
      eexists. eexists. split; [reflexivity|]. rewrite Htrace. simpl.
      rewrite <- !app_assoc. reflexivity.
    + eexists. eexists. split; [reflexivity|]. simpl.
      rewrite <- !app_assoc. reflexivity.
  - eexists. eexists. split; [reflexivity|]. simpl.
    rewrite <- !app_assoc. reflexivity.
Qed.

(** The refresh delay of a source reaches [NewSource] as the configured
    number of hours in nanoseconds as long as it is at most 2562047; from
    2562048 to 5124095 hours the int64 product has wrapped around and
    [NewSource] is handed a negative delay.  Neither is refused here. *)
Theorem refresh_delay_in_hours
        (names : list string) (sourceName : string) (source : SourceConfig)
        (st : State X) :
  firstMissing source = None ->
  exists (st' : State X) (rest : Trace X) (delay : Duration),
    sourceStep X names sourceName source st = Next st'
    /\ trace st'
       = trace st
           ++ NewSourceCall (URL source) (MinisignKeyStr source) (CacheFile source)
                (FormatStr source) delay
           :: rest
    /\ (0 < RefreshDelay source <= 2562047 ->
        delay = RefreshDelay source * 3600000000000)
    /\ (2562047 < RefreshDelay source <= 5124095 ->
        delay = RefreshDelay source * 3600000000000 - 2 ^ 64 /\ delay < 0).
Proof.
  intros Hfields.
  destruct (sourceStep_first_call names sourceName source st Hfields)
    as (st' & rest & Hstep & Htrace).
  exists st', rest,
    (times (if RefreshDelay source <=? 0 then 24 else RefreshDelay source) Hour).
  split; [exact Hstep|]. split; [exact Htrace|].
  change Hour with 3600000000000. split; intros H.
  - destruct (Z.leb_spec (RefreshDelay source) 0); [lia|].
    apply times_exact. lia.
  - destruct (Z.leb_spec (RefreshDelay source) 0); [lia|].
    rewrite times_wrapped by lia. lia.
Qed.

(** A file that sets nothing leaves the defaults: the load resolves
    nothing, gives the proxy a timeout of 2.5 s, UDP, a certificate
    refresh delay of 30 minutes, the listen address 127.0.0.1:53 and a
    cache of 256 entries with TTLs of 60, 60 and 8600 s, and returns "No
    servers configured" when the registry was empty. *)
Theorem defaults_alone_do_not_start (st : State X) (config_file : string) :
  decoded X st = Ok newConfig ->
  registeredServers (proxy st) = [] ->
  snd (ConfigLoad X st config_file)
    = Returned (Some (errors_New "No servers configured"))
  /\ trace (fst (ConfigLoad X st config_file))
     = trace st ++ [DecodeFileCall (configFile X)]
  /\ settingsOf (proxy (fst (ConfigLoad X st config_file)))
     = (2500000000, "udp", 1800000000000, ["127.0.0.1:53"], (false, false),
        (true, 256, 60, 60, 8600)).
Proof.
  intros Hdec Hempty. unfold decoded in Hdec. unfold ConfigLoad. simpl in *.
  rewrite Hdec. simpl. unfold resolve, resolveServers, checkRegistry. simpl.
  rewrite Hempty. simpl. repeat split.
Qed.

(** *** What is decoded and not used *)

Lemma serverStep_sameServer (servers servers' : gomap ServerConfig) :
  Forall2 sameServer servers servers' ->
  forall (serverName : string) (st : State X),
    serverStep X servers serverName st = serverStep X servers' serverName st.
Proof.
  intros Hsame serverName st. unfold serverStep.
  induction Hsame as [|[k sc] [k' sc'] servers servers' Hentry _ IH]; simpl.
  - reflexivity.
  - destruct Hentry as (Hk & Hstamp & Haddress & Hkey & Hprovider).
    simpl in *. subst k'.
    destruct (String.eqb k serverName); [|exact IH].
    unfold callNewServerStampFromLegacy.
    now rewrite Hstamp, Haddress, Hkey, Hprovider.
Qed.

Lemma keys_sameServer (servers servers' : gomap ServerConfig) :
  Forall2 sameServer servers servers' -> keys servers = keys servers'.
Proof.
  induction 1 as [|e e' servers servers' He _ IH]; simpl; [reflexivity|].
  destruct He as (-> & _). now rewrite IH.
Qed.

(** The [no_log] and [dnssec] fields of a server entry are decoded and
    never looked at: two configurations with the same server names and the
    same sources, whose servers tables list the same names in the same
    order with the same stamp string, address, public key and provider
    name, want the same names and are resolved alike, step for step. *)
Theorem server_flags_unused (config config' : Config) (st : State X) :
  ServerNames config = ServerNames config' ->
  SourcesConfig config = SourcesConfig config' ->
  Forall2 sameServer (ServersConfig config) (ServersConfig config') ->
  wantedNames config = wantedNames config'
  /\ resolve X config (wantedNames config) st
     = resolve X config' (wantedNames config') st.
Proof.
  intros Hnames Hsources Hservers.
  assert (wantedNames config = wantedNames config') as Hwanted.
  { unfold wantedNames. rewrite !append_keys, Hnames.
    now rewrite (keys_sameServer _ _ Hservers). }
  split; [exact Hwanted|].
  unfold resolve, resolveServers. rewrite <- Hwanted, <- Hsources.
  destruct (sourcesLoop X (wantedNames config) (SourcesConfig config) st)
    as [st1|st1 err|st1]; simpl; try reflexivity.
  assert (forall names st0,
             serversLoop X (ServersConfig config) names st0
             = serversLoop X (ServersConfig config') names st0) as Hloop.
  { induction names as [|n names IH]; intros st0; simpl; [reflexivity|].
    rewrite (serverStep_sameServer _ _ Hservers n st0).
    destruct (serverStep X (ServersConfig config') n st0); auto. }
  now rewrite Hloop.
Qed.

End Properties.

(** ** The statements at work *)

(** [ConfigLoad] called with "a.toml" while the flag names "b.toml": the
    one file decoded is "b.toml", not the argument, and the load fails as
    "b.toml" makes it fail.  In the same world but for the flag, the same
    call returns nil when the flag names "a.toml", and fails to open
    "dnscrypt-proxy.toml" when no flag is given. *)
Lemma config_file_decides_nothing :
  decodedPaths (trace (fst (ConfigLoad (World.externals (Some "b.toml") World.twoFiles [])
                                       (World.start _) "a.toml")))
    = ["b.toml"]
  /\ decodedPaths (trace (fst (ConfigLoad
                                 (World.externals (Some "b.toml") World.twoFiles [])
                                 (World.start _) "a.toml")))
     <> ["a.toml"]
  /\ snd (ConfigLoad (World.externals (Some "b.toml") World.twoFiles [])
                     (World.start _) "a.toml")
     = Returned (Some (errors_New "No local IP/port configured"))
  /\ snd (ConfigLoad (World.externals (Some "a.toml") World.twoFiles [])
                     (World.start _) "a.toml")
     = Returned None
  /\ snd (ConfigLoad (World.externals None World.twoFiles [])
                     (World.start _) "a.toml")
     = Returned (Some (errors_New
                         "open dnscrypt-proxy.toml: no such file or directory")).
Proof.
  repeat split. discriminate.
Qed.

(** A file with [listen_addresses = []], a server and a source: the load
    fails with nothing in the trace but the decoding. *)
Lemma no_listen_address_is_fatal_witness :
  snd (ConfigLoad World.noListenAddress (World.start _) "dnscrypt-proxy.toml")
    = Returned (Some (errors_New "No local IP/port configured"))
  /\ trace (fst (ConfigLoad World.noListenAddress (World.start _)
                            "dnscrypt-proxy.toml"))
     = [DecodeFileCall "dnscrypt-proxy.toml"].
Proof.
  destruct (no_listen_address_is_fatal World.noListenAddress (World.start _)
              "dnscrypt-proxy.toml"
              (World.file None (Some []) [("r1", World.r1)]
                          [("public", World.publicList)] newConfig)
              eq_refl eq_refl) as (Hload & Htrace & _).
  rewrite Htrace, Hload. split; reflexivity.
Defined.

(** No [server_names], a servers table with the keys "x" and "y", and a
    source: the wanted names are "x" and "y". *)
Lemma wanted_names_default_witness :
  wantedNames (World.file None None [("x", World.r1); ("y", World.r1)]
                          [("public", World.publicList)] newConfig)
  = ["x"; "y"].
Proof.
  apply (proj1 (proj1 (wanted_names_default
                         (World.file None None [("x", World.r1); ("y", World.r1)]
                                     [("public", World.publicList)] newConfig))
                      eq_refl)).
Defined.

(** A usable source without refresh delay followed by a source without
    URL: the first is asked for with a delay of 24 hours, its server "A" is
    registered, and the load fails on the second, named in the error. *)
Lemma source_fields_validated_witness :
  (snd (ConfigLoad World.sourceWithoutURL (World.start _) "dnscrypt-proxy.toml")
     = Returned (Some (errors_New "Missing URL for source [broken]"))
   /\ trace (fst (ConfigLoad World.sourceWithoutURL (World.start _)
                             "dnscrypt-proxy.toml"))
      = [DecodeFileCall "dnscrypt-proxy.toml";
         NewSourceCall "https://example.org/resolvers.csv" "RWQf6LRC"
                       "resolvers.csv" "v1" 86400000000000;
         ParseCall "https://example.org/resolvers.csv";
         Log SeverityInfo "Adding [A] to the set of wanted resolvers"])
  /\ exists (st' : State World.sourceWithoutURL) (rest : Trace World.sourceWithoutURL),
       sourceStep World.sourceWithoutURL ["a"; "b"] "public" World.publicList
                  (World.start _) = Next st'
       /\ trace st'
          = [] ++ NewSourceCall "https://example.org/resolvers.csv" "RWQf6LRC"
                                "resolvers.csv" "v1" (24 * Hour) :: rest.
Proof.
  set (W := World.sourceWithoutURL).
  set (sources := [("public", World.publicList); ("broken", World.noURL)]).
  set (config := World.file (Some ["a"; "b"]) None [] sources newConfig).
  set (st := registerWanted W ["a"; "b"]
               [World.announced "A" "1.1.1.1:443"; World.announced "c" "2.2.2.2:443"]
               (emit W (ParseCall "https://example.org/resolvers.csv")
                  (emit W (NewSourceCall "https://example.org/resolvers.csv"
                             "RWQf6LRC" "resolvers.csv" "v1" 86400000000000)
                        (ready W config (World.start W))))).
  split.
  - assert (ConfigLoad W (World.start W) "dnscrypt-proxy.toml"
            = (st, Returned (Some (errors_New "Missing URL for source [broken]"))))
      as Hload.
    { apply (proj1 (proj2 (proj2 (proj2 (proj2
               (source_fields_validated W ["a"; "b"] "broken" World.noURL st)))))
               "URL" config (World.start W) "dnscrypt-proxy.toml"
               [("public", World.publicList)] [] eq_refl eq_refl).
      repeat split. discriminate. }
    rewrite Hload. split; reflexivity.
  - apply (proj2 (proj2 (proj2 (proj2 (proj2 (proj2
             (source_fields_validated W ["a"; "b"] "public" World.publicList
                                      (World.start W)))))))).
    + reflexivity.
    + simpl. lia.
Defined.

(** A source that cannot be constructed and one that cannot be parsed,
    followed by a usable one: the load returns nil with the server of the
    third. *)
Lemma source_failure_is_skipped_witness :
  snd (ConfigLoad World.threeSources (World.start _) "dnscrypt-proxy.toml")
    = Returned None
  /\ List.map name
       (registeredServers
          (proxy (fst (ConfigLoad World.threeSources (World.start _)
                                  "dnscrypt-proxy.toml"))))
     = ["A"].
Proof.
  set (W := World.threeSources).
  set (sources := [("odd", World.oddList); ("forged", World.forgedList);
                   ("public", World.publicList)]).
  set (config := World.file (Some ["a"; "b"]) None [] sources newConfig).
  destruct (source_failure_is_skipped W ["a"; "b"] "odd" World.oddList
              (ready W config (World.start W)) eq_refl
              (or_introl (ex_intro _ (errors_New "Unsupported source format") eq_refl)))
    as (st1 & Hodd & _ & Hload).
  injection Hodd as <-.
  rewrite (Hload config (World.start W) "dnscrypt-proxy.toml" []
                 [("forged", World.forgedList); ("public", World.publicList)]
                 eq_refl eq_refl).
  - split; reflexivity.
  - repeat split. discriminate.
Defined.

(** No server names and the declared server "a", so that "a" is the wanted
    name, and a source that announces "A" and "c": the load registers "A"
    of the source, drops "c", and then registers the declared "a". *)
Lemma source_candidates_filtered_witness :
  snd (ConfigLoad Scenes.defaultedNames (World.start _) "dnscrypt-proxy.toml")
    = Returned None
  /\ List.map name
       (registeredServers
          (proxy (fst (ConfigLoad Scenes.defaultedNames (World.start _)
                                  "dnscrypt-proxy.toml"))))
     = ["A"; "a"].
Proof.
  set (W := Scenes.defaultedNames).
  set (config := World.file None None [("a", World.r1)]
                            [("public", World.publicList)] newConfig).
  destruct (source_candidates_filtered W ["a"] "public" World.publicList
              (ready W config (World.start W))
              "https://example.org/resolvers.csv"
              [World.announced "A" "1.1.1.1:443"; World.announced "c" "2.2.2.2:443"]
              eq_refl eq_refl eq_refl) as (st' & Hstep & _ & _ & Hload).
  destruct (Hload config (World.start W) "dnscrypt-proxy.toml" [] [] eq_refl eq_refl)
    as [_ Heq].
  - repeat split. discriminate.
  - rewrite Heq. vm_compute in Hstep. injection Hstep as <-. split; reflexivity.
Defined.

(** The servers table has "Cisco", the wanted name is "cisco": the load
    passes over it and ends without a server, with nothing done but the
    decoding, though [includesName] takes the two names for the same; under
    its own name the entry is found. *)
Lemma explicit_lookup_is_exact_witness :
  (ConfigLoad World.otherCase (World.start _) "dnscrypt-proxy.toml"
   = (ready World.otherCase
            (World.file (Some ["cisco"]) None [("Cisco", World.r1)] [] newConfig)
            (World.start _),
      Returned (Some (errors_New "No servers configured")))
   /\ includesName World.otherCase ["Cisco"] "cisco" = true)
  /\ lookup [("Cisco", World.r1)] "Cisco" = Some World.r1.
Proof.
  set (W := World.otherCase).
  set (config := World.file (Some ["cisco"]) None [("Cisco", World.r1)] [] newConfig).
  assert (~ In "cisco" (keys [("Cisco", World.r1)])) as Hnot.
  { intros [H|[]]. discriminate H. }
  split.
  - destruct (explicit_lookup_is_exact W [("Cisco", World.r1)] "cisco"
                (ready W config (World.start W)))
      as (_ & _ & Hcase & _ & _ & _ & Hload).
    split.
    + rewrite (Hload config (World.start W) "dnscrypt-proxy.toml" [] []
                     eq_refl eq_refl).
      * reflexivity.
      * exists (ready W config (World.start W)). repeat split. discriminate.
      * exact Hnot.
    + apply (Hcase "Cisco"); [now left | reflexivity | exact Hnot].
  - destruct (explicit_lookup_is_exact W [("Cisco", World.r1)] "Cisco"
                (World.start W))
      as (_ & _ & _ & _ & Hstored & _).
    apply Hstored; [|now left].
    repeat constructor. intros [].
Defined.

(** The load of a file that declares a server by a stamp string does not
    hand an error to its caller: the process ends inside [ConfigLoad]. *)
Lemma stamp_string_returns_no_error :
  snd (ConfigLoad World.stampedServer (World.start _) "dnscrypt-proxy.toml") = Exited
  /\ ~ (exists err : error,
           snd (ConfigLoad World.stampedServer (World.start _) "dnscrypt-proxy.toml")
           = Returned (Some err)).
Proof.
  split; [reflexivity|]. intros [err H]. discriminate H.
Qed.

(** A server in order followed by one given as a stamp string, its legacy
    fields in order as well: the first is registered, then the process
    ends on the fatal log line. *)
Lemma stamp_string_is_fatal_witness :
  snd (ConfigLoad World.stampedServer (World.start _) "dnscrypt-proxy.toml") = Exited
  /\ trace (fst (ConfigLoad World.stampedServer (World.start _) "dnscrypt-proxy.toml"))
     = [DecodeFileCall "dnscrypt-proxy.toml";
        NewServerStampFromLegacyCall "1.2.3.4:443" "ABCD" "p.example";
        Log SeverityFatal "Stamps are not implemented yet"]
  /\ List.map name
       (registeredServers
          (proxy (fst (ConfigLoad World.stampedServer (World.start _)
                                  "dnscrypt-proxy.toml"))))
     = ["r1"].
Proof.
  set (W := World.stampedServer).
  set (servers := [("r1", World.r1); ("r2", World.stamped)]).
  set (config := World.file None None servers [] newConfig).
  set (st := register W {| name := "r1";
                           stamp := World.legacy "1.2.3.4:443" "ABCD" "p.example" |}
               (emit W (NewServerStampFromLegacyCall "1.2.3.4:443" "ABCD" "p.example")
                     (ready W config (World.start W)))).
  assert (ConfigLoad W (World.start W) "dnscrypt-proxy.toml"
          = (emit W (Log SeverityFatal "Stamps are not implemented yet") st, Exited))
    as Hload.
  { apply (proj1 (proj2 (stamp_string_is_fatal W servers "r2" World.stamped st
                           eq_refl ltac:(discriminate)))
             config (World.start W) "dnscrypt-proxy.toml" ["r1"] [] eq_refl eq_refl).
    exists (ready W config (World.start W)). repeat split. discriminate. }
  rewrite Hload. repeat split.
Defined.

(** The wanted names "r0" and "r1", in this order, "r0" without provider
    name: the load returns the error of the builder, and the builder is not
    called for "r1". *)
Lemma legacy_failure_is_fatal_witness :
  snd (ConfigLoad World.namelessServer (World.start _) "dnscrypt-proxy.toml")
    = Returned (Some (errors_New "Invalid provider name"))
  /\ trace (fst (ConfigLoad World.namelessServer (World.start _) "dnscrypt-proxy.toml"))
     = [DecodeFileCall "dnscrypt-proxy.toml";
        NewServerStampFromLegacyCall "5.6.7.8:443" "EF01" ""]
  /\ registeredServers
       (proxy (fst (ConfigLoad World.namelessServer (World.start _)
                               "dnscrypt-proxy.toml")))
     = [].
Proof.
  set (W := World.namelessServer).
  set (servers := [("r1", World.r1); ("r0", World.nameless)]).
  set (config := World.file (Some ["r0"; "r1"]) None servers [] newConfig).
  set (st := ready W config (World.start W)).
  assert (ConfigLoad W (World.start W) "dnscrypt-proxy.toml"
          = (fst (callNewServerStampFromLegacy W World.nameless st),
             Returned (Some (errors_New "Invalid provider name")))) as Hload.
  { apply (proj2 (proj2 (legacy_failure_is_fatal W servers "r0" World.nameless st
                           (errors_New "Invalid provider name")
                           eq_refl eq_refl eq_refl))
             config (World.start W) "dnscrypt-proxy.toml" [] ["r1"] eq_refl eq_refl).
    exists st. repeat split. discriminate. }
  rewrite Hload. repeat split.
Defined.

(** Without any server the load ends on the last check; with one declared
    server it returns nil and the registry holds it. *)
Lemma registry_checked_last_witness :
  snd (ConfigLoad World.noServer (World.start _) "dnscrypt-proxy.toml")
    = Returned (Some (errors_New "No servers configured"))
  /\ (1 <= List.length
             (registeredServers
                (proxy (fst (ConfigLoad World.oneServer (World.start _)
                                        "dnscrypt-proxy.toml")))))%nat.
Proof.
  split.
  - set (W := World.noServer).
    set (config := World.file None None [] [] newConfig).
    apply (proj1 (registry_checked_last W (World.start W) "dnscrypt-proxy.toml")
                 config (ready W config (World.start W))).
    + exists (ready W config (World.start W)). repeat split. discriminate.
    + reflexivity.
  - apply (proj2 (registry_checked_last World.oneServer
                    (World.start _) "dnscrypt-proxy.toml")).
    reflexivity.
Defined.

(** The load that ends on the stamp string of "r2" has nonetheless given
    the proxy the settings of the file, here the defaults. *)
Lemma settings_survive_resolution_witness :
  snd (ConfigLoad World.stampedServer (World.start _) "dnscrypt-proxy.toml") = Exited
  /\ settingsOf (proxy (fst (ConfigLoad World.stampedServer (World.start _)
                                        "dnscrypt-proxy.toml")))
     = (2500000000, "udp", 1800000000000, ["127.0.0.1:53"], (false, false),
        (true, 256, 60, 60, 8600)).
Proof.
  split; [reflexivity|].
  rewrite (settings_survive_resolution World.stampedServer (World.start _)
             "dnscrypt-proxy.toml"
             (World.file None None [("r1", World.r1); ("r2", World.stamped)] []
                         newConfig) eq_refl ltac:(discriminate)).
  reflexivity.
Defined.

(** One declared server: nil, and the default listen address. *)
Lemma listen_address_on_success_witness :
  listenAddresses (proxy (fst (ConfigLoad World.oneServer (World.start _)
                                          "dnscrypt-proxy.toml"))) <> []
  /\ (mainProto (proxy (fst (ConfigLoad World.oneServer (World.start _)
                                        "dnscrypt-proxy.toml"))) = "tcp"
      \/ mainProto (proxy (fst (ConfigLoad World.oneServer (World.start _)
                                           "dnscrypt-proxy.toml"))) = "udp").
Proof.
  apply (listen_address_on_success World.oneServer (World.start _)
           "dnscrypt-proxy.toml" eq_refl).
Defined.

(** The wanted names "a", "r1", "r1", a source that announces "A" and "c",
    and the declared server "r1": the registry is "A", then "r1" twice. *)
Lemma registry_grows_by_wanted_servers_witness :
  exists added : list (Server Scenes.listedTwice),
    registeredServers (proxy (fst (ConfigLoad Scenes.listedTwice (World.start _)
                                              "dnscrypt-proxy.toml")))
    = [] ++ added
    /\ List.map name added = ["A"; "r1"; "r1"].
Proof.
  destruct (registry_grows_by_wanted_servers Scenes.listedTwice (World.start _)
              "dnscrypt-proxy.toml") as (added & Hadded & _).
  exists added. split; [exact Hadded|].
  simpl in Hadded. rewrite <- Hadded. reflexivity.
Defined.

Lemma registry_order_on_success_witness :
  exists fromSources fromServers : list (Server Scenes.listedTwice),
    registeredServers (proxy (fst (ConfigLoad Scenes.listedTwice (World.start _)
                                              "dnscrypt-proxy.toml")))
    = [] ++ fromSources ++ fromServers
    /\ List.map name fromServers = ["r1"; "r1"].
Proof.
  destruct (registry_order_on_success Scenes.listedTwice (World.start _)
              "dnscrypt-proxy.toml" eq_refl)
    as (config & fromSources & fromServers & Hdec & Hregistry & _ & Hnames).
  exists fromSources, fromServers. split; [exact Hregistry|].
  injection Hdec as <-. exact Hnames.
Defined.

(** The load that fails on the server without provider name: of the five
    kinds of error, this is the error of the stamp builder. *)
Lemma errors_returned_witness :
  decoded World.namelessServer (World.start _)
    = Err (errors_New "Invalid provider name")
  \/ exists config : Config,
       decoded World.namelessServer (World.start _) = Ok config
       /\ ((ListenAddresses config = []
            /\ errors_New "Invalid provider name"
               = errors_New "No local IP/port configured")
           \/ (exists n s field,
                  In (n, s) (SourcesConfig config) /\ firstMissing s = Some field
                  /\ errors_New "Invalid provider name"
                     = errors_New ("Missing " ++ field ++ " for source ["
                                     ++ n ++ "]"))
           \/ (exists n serverConfig tr,
                  In n (wantedNames config)
                  /\ lookup (ServersConfig config) n = Some serverConfig
                  /\ Stamp serverConfig = ""
                  /\ NewServerStampFromLegacy World.namelessServer tr
                       (Address serverConfig) (PublicKey serverConfig)
                       (ProviderName serverConfig)
                     = Err (errors_New "Invalid provider name"))
           \/ (errors_New "Invalid provider name" = errors_New "No servers configured"
               /\ registeredServers
                    (proxy (fst (ConfigLoad World.namelessServer (World.start _)
                                            "dnscrypt-proxy.toml"))) = [])).
Proof.
  apply (errors_returned World.namelessServer (World.start _) "dnscrypt-proxy.toml"
           (errors_New "Invalid provider name") eq_refl).
Defined.

Lemma exit_only_on_stamp_string_witness :
  exists (config : Config) (n : string) (serverConfig : ServerConfig)
         (tr : Trace World.stampedServer),
    decoded World.stampedServer (World.start _) = Ok config
    /\ ListenAddresses config <> []
    /\ Forall (fun entry => firstMissing (snd entry) = None) (SourcesConfig config)
    /\ In n (wantedNames config)
    /\ lookup (ServersConfig config) n = Some serverConfig
    /\ Stamp serverConfig <> ""
    /\ trace (fst (ConfigLoad World.stampedServer (World.start _)
                              "dnscrypt-proxy.toml"))
       = tr ++ [Log SeverityFatal "Stamps are not implemented yet"].
Proof.
  apply (exit_only_on_stamp_string World.stampedServer (World.start _)
           "dnscrypt-proxy.toml" eq_refl).
Defined.

(** Three sources, of which the first cannot be constructed: three
    constructions, two parses, no stamp. *)
Lemma collaborators_called_once_witness :
  constructions (trace (fst (ConfigLoad World.threeSources (World.start _)
                                        "dnscrypt-proxy.toml"))) = 3%nat
  /\ parses (trace (fst (ConfigLoad World.threeSources (World.start _)
                                    "dnscrypt-proxy.toml"))) = 2%nat
  /\ stampsBuilt (trace (fst (ConfigLoad World.threeSources (World.start _)
                                         "dnscrypt-proxy.toml"))) = 0%nat.
Proof.
  pose proof (collaborators_called_once World.threeSources (World.start _)
                "dnscrypt-proxy.toml") as H.
  change (decoded World.threeSources (World.start _))
    with (Ok (World.file (Some ["a"; "b"]) None []
                [("odd", World.oddList); ("forged", World.forgedList);
                 ("public", World.publicList)] newConfig)) in H.
  cbv iota in H.
  destruct H as (a & b & c & H1 & H2 & H3 & Hab & Hc & Hexact).
  destruct (Hexact eq_refl) as [-> ->].
  rewrite H1, H3. repeat split.
Defined.

(** A usable source, then a source without URL: the error names the
    second, after one construction and without any stamp. *)
Lemma first_incomplete_source_decides_witness :
  snd (ConfigLoad World.sourceWithoutURL (World.start _) "dnscrypt-proxy.toml")
    = Returned (Some (errors_New "Missing URL for source [broken]"))
  /\ constructions (trace (fst (ConfigLoad World.sourceWithoutURL (World.start _)
                                           "dnscrypt-proxy.toml")))
     = (0 + 1)%nat
  /\ stampsBuilt (trace (fst (ConfigLoad World.sourceWithoutURL (World.start _)
                                         "dnscrypt-proxy.toml")))
     = 0%nat.
Proof.
  apply (first_incomplete_source_decides World.sourceWithoutURL (World.start _)
           "dnscrypt-proxy.toml"
           (World.file (Some ["a"; "b"]) None []
              [("public", World.publicList); ("broken", World.noURL)] newConfig)
           [("public", World.publicList)] [] "broken" World.noURL "URL"
           eq_refl ltac:(discriminate) eq_refl).
  - repeat constructor.
  - reflexivity.
Defined.

(** "cisco" is included by a list that holds "Cisco", wherever and however
    often. *)
Lemma includesName_as_a_set_witness :
  includesName World.otherCase (["a"; "b"] ++ ["Cisco"]) "cisco" = true
  /\ includesName World.otherCase ["Cisco"; "b"; "a"; "Cisco"] "cisco" = true.
Proof.
  split.
  - rewrite (proj1 (includesName_as_a_set World.otherCase ["a"; "b"] ["Cisco"]
                      [] [] "cisco")).
    reflexivity.
  - apply (proj2 (includesName_as_a_set World.otherCase [] []
                    ["a"; "b"; "Cisco"] ["Cisco"; "b"; "a"; "Cisco"] "cisco")).
    + simpl. intuition.
    + reflexivity.
Defined.

(** A source announces "A" and "c", but no name is wanted: the load fails
    for want of servers. *)
Lemma sources_alone_register_nothing_witness :
  snd (ConfigLoad Scenes.sourcesOnly (World.start _) "dnscrypt-proxy.toml")
    = Returned (Some (errors_New "No servers configured"))
  /\ registeredServers (proxy (fst (ConfigLoad Scenes.sourcesOnly (World.start _)
                                               "dnscrypt-proxy.toml"))) = []
  /\ stampsBuilt (trace (fst (ConfigLoad Scenes.sourcesOnly (World.start _)
                                         "dnscrypt-proxy.toml"))) = 0%nat.
Proof.
  apply (sources_alone_register_nothing Scenes.sourcesOnly (World.start _)
           "dnscrypt-proxy.toml"
           (World.file None None [] [("public", World.publicList)] newConfig)
           eq_refl ltac:(discriminate) eq_refl).
  - repeat constructor.
  - reflexivity.
Defined.

(** A timeout of 9223372036855 ms has wrapped around and is stored as less,
    next to a refresh delay of 240 minutes that is stored as it is; a
    refresh delay of minus 153722868 minutes has wrapped around and is
    stored as more, a positive duration. *)
Lemma transport_durations_witness :
  (timeout (proxy (fst (ConfigLoad Scenes.longTimeout (World.start _)
                                   "dnscrypt-proxy.toml")))
     < 9223372036855 * 1000000
   /\ certRefreshDelay (proxy (fst (ConfigLoad Scenes.longTimeout (World.start _)
                                               "dnscrypt-proxy.toml")))
      = 240 * 60000000000)
  /\ - 153722868 * 60000000000
     < certRefreshDelay (proxy (fst (ConfigLoad Scenes.negativeRefresh (World.start _)
                                                "dnscrypt-proxy.toml")))
  /\ certRefreshDelay (proxy (fst (ConfigLoad Scenes.negativeRefresh (World.start _)
                                              "dnscrypt-proxy.toml")))
     = 9223371993709551616.
Proof.
  split; [|split; [|reflexivity]].
  - destruct (transport_durations Scenes.longTimeout (World.start _)
                "dnscrypt-proxy.toml" (Scenes.delays 9223372036855 240 newConfig)
                eq_refl) as (_ & Hlong & _ & Hexact & _).
    split; [apply Hlong | apply Hexact]; simpl; lia.
  - destruct (transport_durations Scenes.negativeRefresh (World.start _)
                "dnscrypt-proxy.toml" (Scenes.delays 2500 (-153722868) newConfig)
                eq_refl) as (_ & _ & _ & _ & _ & Hbelow).
    apply Hbelow. simpl. lia.
Defined.

(** A source refreshed every 2562048 hours is constructed with a negative
    delay. *)
Lemma refresh_delay_in_hours_witness :
  exists (st' : State World.threeSources) (rest : Trace World.threeSources)
         (delay : Duration),
    sourceStep World.threeSources ["a"; "b"] "public" Scenes.rarelyRefreshed
               (World.start _) = Next st'
    /\ trace st'
       = [] ++ NewSourceCall "https://example.org/resolvers.csv" "RWQf6LRC"
                             "resolvers.csv" "v1" delay :: rest
    /\ delay = 2562048 * 3600000000000 - 2 ^ 64
    /\ delay < 0.
Proof.
  destruct (refresh_delay_in_hours World.threeSources ["a"; "b"] "public"
              Scenes.rarelyRefreshed (World.start _) eq_refl)
    as (st' & rest & delay & Hstep & Htrace & _ & Hwrapped).
  exists st', rest, delay. split; [exact Hstep|]. split; [exact Htrace|].
  apply Hwrapped. simpl. lia.
Defined.

(** The world whose file sets nothing. *)
Lemma defaults_alone_do_not_start_witness :
  snd (ConfigLoad World.noServer (World.start _) "dnscrypt-proxy.toml")
    = Returned (Some (errors_New "No servers configured"))
  /\ trace (fst (ConfigLoad World.noServer (World.start _) "dnscrypt-proxy.toml"))
     = [] ++ [DecodeFileCall "dnscrypt-proxy.toml"]
  /\ settingsOf (proxy (fst (ConfigLoad World.noServer (World.start _)
                                        "dnscrypt-proxy.toml")))
     = (2500000000, "udp", 1800000000000, ["127.0.0.1:53"], (false, false),
        (true, 256, 60, 60, 8600)).
Proof.
  apply (defaults_alone_do_not_start World.noServer (World.start _)
           "dnscrypt-proxy.toml" eq_refl eq_refl).
Defined.

(** The server "r1" with and without its two flags: the same registry. *)
Lemma server_flags_unused_witness :
  resolve World.oneServer
          (World.file None None [("r1", World.r1)] [] newConfig) ["r1"]
          (World.start _)
  = resolve World.oneServer
            (World.file None None [("r1", Scenes.flagged)] [] newConfig) ["r1"]
            (World.start _).
Proof.
  apply (proj2 (server_flags_unused World.oneServer
                  (World.file None None [("r1", World.r1)] [] newConfig)
                  (World.file None None [("r1", Scenes.flagged)] [] newConfig)
                  (World.start _) eq_refl eq_refl
                  ltac:(repeat constructor))).
Defined.
